(** * JupyterLite [LiteManager]: addons, task generators and their gating

    A shallow embedding of [py/jupyterlite-core/jupyterlite_core/manager.py].

    The manager maps addons to [doit] task generators.  Three parts of the
    class carry behaviour and are embedded here:

    - [create_addons] / [_is_sys_prefix_ignored]: the addon registry;
    - [_default_doit_tasks] / [_gather_tasks]: the generator map and the
      [doit.create_after] gating;
    - [_gather]: the generator body that polls every addon, copies and
      renames each task, and applies the strict / lenient error policy.

    Python dictionaries whose iteration order is observed (the registry,
    the generator map, the entry points) are association lists updated the
    way [d[k] = v] updates a dict.  Task dictionaries live in an object
    store, so that copying and aliasing are visible.  Logging, printing,
    yielding and the calls made to the external collaborators (addon
    factories, addon task methods) are recorded in an event trace.

    Exceptions are the instances of Python's [Exception] class, which is the
    class both handlers of the file name ([except Exception]). *)

From Stdlib Require Import Ascii.
From stdpp Require Import gmap strings list fin_maps sorting pretty.

(** ** Python values, objects and the store *)

Definition loc := nat.

(** A value is an immediate string or a reference to an object. *)
Inductive pyval :=
  | PyStr (s : string)
  | PyRef (l : loc).

(** An object is a [dict] with string keys; or a mapping that is not a dict
    (a [UserDict], a [mappingproxy], ...), of which the type name and the
    items are kept: [{**m}] and [m[key]] read its items, a missing key being
    a [KeyError] as the mapping protocol has it; or an object that is not a
    mapping, of which only the type name is kept. *)
Inductive pyobj :=
  | ObjDict (items : gmap string pyval)
  | ObjMapping (type_name : string) (items : gmap string pyval)
  | ObjOther (type_name : string).

Abbreviation heap := (gmap loc pyobj).

#[global] Instance pyval_eq_dec : EqDecision pyval.
Proof. solve_decision. Defined.

(** Instances of [Exception]: the class name, the text [str(e)] gives, and
    whether the instance is a [StopIteration] (an instance of that class or
    of a class derived from it). *)
Record exn := MkExn { exn_class : string; exn_str : string; exn_stops : bool }.

(** An instance of a class that is not derived from [StopIteration]. *)
Definition Exn (cls msg : string) : exn := MkExn cls msg false.

#[global] Instance exn_eq_dec : EqDecision exn.
Proof. solve_decision. Defined.

Definition KeyError (key : string) : exn := Exn "KeyError" ("'" +:+ key +:+ "'").
Definition TypeError (msg : string) : exn := Exn "TypeError" msg.
Definition RuntimeError (msg : string) : exn := Exn "RuntimeError" msg.
Definition StopIteration (msg : string) : exn := MkExn "StopIteration" msg true.

(** An exception on its way out of a generator: a [StopIteration] leaves it
    as [RuntimeError("generator raised StopIteration")] (PEP 479), any other
    exception as it is. *)
Definition leaving_generator (e : exn) : exn :=
  if exn_stops e then RuntimeError "generator raised StopIteration" else e.
Definition AttributeError (ty attr : string) : exn :=
  Exn "AttributeError" ("'" +:+ ty +:+ "' object has no attribute '" +:+ attr +:+ "'").

(** ** Python dictionaries with observable order *)

Abbreviation pydict V := (list (string * V)).

(** [d[k] = v]: an existing key keeps its position, a new key goes last. *)
Fixpoint dict_set {V} (k : string) (v : V) (d : pydict V) : pydict V :=
  match d with
  | [] => [(k, v)]
  | (k', v') :: rest =>
      if decide (k = k') then (k, v) :: rest else (k', v') :: dict_set k v rest
  end.

Definition dict_keys {V} (d : pydict V) : list string := d.*1.

(** ** Run configuration: the traits of [LiteManager] and [LiteBuildConfig] *)

(** Modelled from the spec: [config.py] ([LiteBuildConfig], which declares
    [disable_addons] and [ignore_sys_prefix]) is not part of the sources; the
    spec gives a list of disabled names and a selector that is a boolean or
    an explicit set of names, which [_is_sys_prefix_ignored] tells apart with
    [isinstance(ignore, tuple)]. *)
Inductive ignore_selector :=
  | IgnoreBool (b : bool)
  | IgnoreTuple (names : list string).

Record LiteManager := {
  strict : bool;
  task_prefix : string;
  disable_addons : list string;
  ignore_sys_prefix : ignore_selector
}.

#[global] Instance ignore_selector_eq_dec : EqDecision ignore_selector.
Proof. solve_decision. Defined.

#[global] Instance LiteManager_eq_dec : EqDecision LiteManager.
Proof. solve_decision. Defined.

(** ** Addons *)

(** What polling the iterable returned by an addon method gives: it stops,
    it yields a value and goes on, or it raises; [rest] is what polling it
    again would give (a generator that raised has stopped, an iterator
    object may have more).  A method that raises when called, or returns
    something that is not iterable, is [IterRaise] at the head; that is
    where a [StopIteration] can come from, since one raised by [__next__]
    ends the [for] loop as [IterStop] does. *)
Inductive task_iter :=
  | IterStop
  | IterYield (task : pyval) (rest : task_iter)
  | IterRaise (error : exn) (rest : task_iter).

(** An addon: the name of its class, its [__all__] and its attributes.
    [__all__] is a list of names, as the addon classes declare it, so that
    [attr in addon.__all__] is a test that gives a boolean; an object whose
    [__all__] is missing or is no container is not an [Addon]. *)
Record Addon := {
  addon_type : string;
  __all__ : list string;
  addon_getattr : string → option (LiteManager → task_iter)
}.

(** Keyword arguments of an addon constructor: [dict(manager=self)], then
    possibly [update(ignore_sys_prefix=True)]. *)
Record addon_kwargs := {
  kw_manager : LiteManager;
  kw_ignore_sys_prefix : option bool
}.

#[global] Instance addon_kwargs_eq_dec : EqDecision addon_kwargs.
Proof. solve_decision. Defined.

(** An entry point builds an addon or raises. *)
Definition addon_implementation := addon_kwargs → exn + Addon.

(** ** Events *)

Inductive level := DEBUG | INFO | WARNING | ERROR.

Inductive event :=
  | EvLog (lvl : level) (msg : string) (exc_info : option exn)
  | EvPrint (line : string)
  | EvYield (task : pyval)
  | EvConstruct (name : string) (kw : addon_kwargs)
  | EvPoll (name attr : string).

#[global] Instance level_eq_dec : EqDecision level.
Proof. solve_decision. Defined.

#[global] Instance event_eq_dec : EqDecision event.
Proof. solve_decision. Defined.

(** ** The constants module *)

(** Modelled from the spec: [constants.py] ([HOOKS], [PHASES],
    [HOOK_PARENTS]) is not part of the sources; the spec describes an ordered
    list of stages, an ordered list of phases and a parent map.  They are
    parameters of the generator-map builder. *)
Record constants := {
  HOOKS : list string;
  PHASES : list string;
  HOOK_PARENTS : gmap string string
}.

(** ** Generator nodes *)

(** [_gather_tasks] returns the closure [_gather] for [attr], bare or wrapped
    by [doit.create_after(target)]. *)
Record generator := {
  gen_attr : string;
  gen_create_after : option string
}.

(** ** Registry: [_is_sys_prefix_ignored] and [create_addons] *)

Definition _is_sys_prefix_ignored (self : LiteManager) (addon : string) : bool :=
  match ignore_sys_prefix self with
  | IgnoreTuple names => bool_decide (addon ∈ names)
  | IgnoreBool b => b
  end.

Definition log_will (name one : string) : event :=
  EvLog DEBUG ("[lite] [addon] [" +:+ name +:+ "] ... will " +:+ one) None.

(** The keyword arguments [create_addons] builds for the addon [name]. *)
Definition addon_kw (self : LiteManager) (name : string) : addon_kwargs :=
  {| kw_manager := self;
     kw_ignore_sys_prefix :=
       if _is_sys_prefix_ignored self name then Some true else None |}.

(** One iteration of the loop of [create_addons]. *)
Definition create_addon (self : LiteManager)
    (acc : pydict Addon * list event) (entry : string * addon_implementation)
    : pydict Addon * list event :=
  let '(addons, evs) := acc in
  let '(name, addon_implementation) := entry in
  if decide (name ∈ disable_addons self) then
    (addons,
     evs ++ [EvLog INFO ("[lite] [addon] [" +:+ name +:+ "] skipped by config") None])
  else
    let evs1 :=
      if _is_sys_prefix_ignored self name
      then [EvLog DEBUG ("[lite] [addon] [" +:+ name +:+ "] ... ignore sys prefix") None]
      else [] in
    let addon_kwargs := addon_kw self name in
    match addon_implementation addon_kwargs with
    | inr addon_inst =>
        (dict_set name addon_inst addons,
         evs ++ evs1 ++ [EvConstruct name addon_kwargs]
             ++ (log_will name <$> merge_sort String.le (__all__ addon_inst)))
    | inl err =>
        (addons,
         evs ++ evs1 ++ [EvConstruct name addon_kwargs]
             ++ [EvLog WARNING ("[lite] [addon] [" +:+ name +:+ "] FAIL") (Some err)])
    end.

Definition create_addons (self : LiteManager)
    (implementations : pydict addon_implementation) : pydict Addon * list event :=
  foldl (create_addon self) ([], []) implementations.

(** The cached trait [_addons]. *)
Definition _default_addons (self : LiteManager)
    (implementations : pydict addon_implementation) : pydict Addon :=
  (create_addons self implementations).1.

(** ** Generator map: [_gather_tasks] and [_default_doit_tasks] *)

(** [if not prev_attr]: [None] and the empty string are both falsy. *)
Definition _gather_tasks (self : LiteManager) (attr : string)
    (prev_attr : option string) : generator :=
  match prev_attr with
  | None => {| gen_attr := attr; gen_create_after := None |}
  | Some p =>
      if decide (p = "")
      then {| gen_attr := attr; gen_create_after := None |}
      else {| gen_attr := attr;
              gen_create_after := Some (task_prefix self +:+ p) |}
  end.

(** The name under which the generator of [attr] is registered. *)
Definition task_key (self : LiteManager) (attr : string) : string :=
  "task_" +:+ task_prefix self +:+ attr.

(** Body of the inner loop, over [PHASES]. *)
Definition doit_phase (self : LiteManager) (c : constants) (hook : string)
    (acc : pydict generator * option string) (phase : string)
    : pydict generator * option string :=
  let '(tasks, prev_attr) := acc in
  let prev_attr :=
    if decide (phase = "pre_") then
      match HOOK_PARENTS c !! hook with
      | Some parent => Some ("post_" +:+ parent)
      | None => prev_attr
      end
    else prev_attr in
  let attr := phase +:+ hook in
  (dict_set (task_key self attr) (_gather_tasks self attr prev_attr) tasks,
   Some attr).

(** Body of the outer loop, over [HOOKS]. *)
Definition doit_hook (self : LiteManager) (c : constants)
    (acc : pydict generator * option string) (hook : string)
    : pydict generator * option string :=
  foldl (doit_phase self c hook) acc (PHASES c).

Definition _default_doit_tasks (self : LiteManager) (c : constants)
    : pydict generator :=
  (foldl (doit_hook self c) ([], None) (HOOKS c)).1.

(** ** Generators as computations over the store *)

(** A computation reads and extends the store, appends events, and returns or
    raises. *)
Inductive result (A : Type) :=
  | Ok (a : A)
  | Raised (e : exn).
Arguments Ok {A} a.
Arguments Raised {A} e.

Definition M (A : Type) : Type := heap → result A * heap * list event.

#[global] Instance M_ret : MRet M := λ A a h, (Ok a, h, []).

#[global] Instance M_bind : MBind M := λ A B f m h,
  match m h with
  | (Ok a, h1, evs1) => let '(r, h2, evs2) := f a h1 in (r, h2, evs1 ++ evs2)
  | (Raised e, h1, evs1) => (Raised e, h1, evs1)
  end.

Definition raise {A} (e : exn) : M A := λ h, (Raised e, h, []).

(** [try: body except Exception as error: handler error] *)
Definition try_except {A} (body : M A) (handler : exn → M A) : M A := λ h,
  match body h with
  | (Ok a, h1, evs1) => (Ok a, h1, evs1)
  | (Raised e, h1, evs1) =>
      let '(r, h2, evs2) := handler e h1 in (r, h2, evs1 ++ evs2)
  end.

Definition emit (ev : event) : M unit := λ h, (Ok tt, h, [ev]).

(** The yielded values of a trace, in order. *)
Definition yields (evs : list event) : list pyval :=
  omap (λ ev, match ev with EvYield v => Some v | _ => None end) evs.

(** The type name Python reports for a value. *)
Definition type_name (h : heap) (v : pyval) : string :=
  match v with
  | PyStr _ => "str"
  | PyRef l =>
      match h !! l with
      | Some (ObjDict _) => "dict"
      | Some (ObjMapping ty _) => ty
      | Some (ObjOther ty) => ty
      | None => "object"
      end
  end.

(** The items of an object that is a mapping, and of a value that refers
    to one. *)
Definition obj_items (obj : pyobj) : option (gmap string pyval) :=
  match obj with
  | ObjDict items => Some items
  | ObjMapping _ items => Some items
  | ObjOther _ => None
  end.

Definition as_mapping (h : heap) (v : pyval) : option (gmap string pyval) :=
  match v with
  | PyRef l => h !! l ≫= obj_items
  | PyStr _ => None
  end.

(** [{**task}]: a new dict with the items of [task]. *)
Definition dict_unpack (task : pyval) : M loc := λ h,
  match as_mapping h task with
  | Some items =>
      let l := fresh (dom h) in (Ok l, <[l := ObjDict items]> h, [])
  | None =>
      (Raised (TypeError ("'" +:+ type_name h task +:+ "' object is not a mapping")), h, [])
  end.

(** [obj[key]] *)
Definition getitem (obj : pyval) (key : string) : M pyval := λ h,
  match as_mapping h obj with
  | Some items =>
      match items !! key with
      | Some v => (Ok v, h, [])
      | None => (Raised (KeyError key), h, [])
      end
  | None =>
      (Raised (TypeError ("'" +:+ type_name h obj +:+ "' object is not subscriptable")), h, [])
  end.

(** [obj[key] = v] on the dict at [l]; the only assignment of the file is
    on the dict [{**task}] has just made. *)
Definition setitem (l : loc) (key : string) (v : pyval) : M unit := λ h,
  match h !! l with
  | Some (ObjDict items) => (Ok tt, <[l := ObjDict (<[key := v]> items)]> h, [])
  | _ =>
      (Raised (TypeError ("'" +:+ type_name h (PyRef l)
                          +:+ "' object does not support item assignment")), h, [])
  end.

Section Gather.

(** [str()] of a value that is not a string, as the f-string and [print]
    apply it. *)
Variable builtin_str : pyval → string.

Definition py_format (v : pyval) : string :=
  match v with
  | PyStr s => s
  | PyRef _ => builtin_str v
  end.

Variable self : LiteManager.

(** The name [_gather] gives the task of addon [name] called [original]. *)
Definition patched_name (name original : string) : string :=
  task_prefix self +:+ name +:+ ":" +:+ original.

(** Body of the loop over the tasks of one addon. *)
Definition patch_task (name : string) (task : pyval) : M unit :=
  patched ← dict_unpack task;
  original ← getitem task "name";
  setitem patched "name" (PyStr (patched_name name (py_format original)));;
  shown ← getitem (PyRef patched) "name";
  emit (EvPrint (py_format shown));;
  emit (EvYield (PyRef patched)).

(** [for task in ...: body] *)
Fixpoint for_tasks (name : string) (it : task_iter) : M unit :=
  match it with
  | IterStop => mret tt
  | IterRaise error _ => raise error
  | IterYield task rest => patch_task name task;; for_tasks name rest
  end.

(** [getattr(addon, attr)(self)] *)
Definition call_attr (addon : Addon) (attr : string) : M task_iter :=
  match addon_getattr addon attr with
  | Some method => mret (method self)
  | None => raise (AttributeError (addon_type addon) attr)
  end.

Definition log_err (attr name : string) (error : exn) : event :=
  EvLog ERROR ("[lite] [" +:+ attr +:+ "] [" +:+ name +:+ "] [ERR] " +:+ exn_str error) None.

(** Body of the [try]: the generator turns to the addon [name], which is
    recorded, calls its method and loops over what it gives. *)
Definition gather_try (attr name : string) (addon : Addon) : M unit :=
  emit (EvPoll name attr);;
  it ← call_attr addon attr;
  for_tasks name it.

(** Body of the loop over the addons. *)
Definition gather_addon (attr : string) (entry : string * Addon) : M unit :=
  let '(name, addon) := entry in
  if decide (attr ∈ __all__ addon) then
    try_except
      (gather_try attr name addon)
      (λ error,
         emit (log_err attr name error);;
         if strict self then raise (leaving_generator error) else mret tt)
  else mret tt.

(** The generator [_gather] of [_gather_tasks(attr, _)], run to its end.
    The only exception that leaves it is the one [raise error] re-raises. *)
Fixpoint _gather (addons : pydict Addon) (attr : string) : M unit :=
  match addons with
  | [] => mret tt
  | entry :: rest => gather_addon attr entry;; _gather rest attr
  end.

(** Expanding a node: [_delayed_gather] yields from [_gather]. *)
Definition expand (addons : pydict Addon) (g : generator) : M unit :=
  _gather addons (gen_attr g).

(** Expanding several nodes one after the other. *)
Fixpoint expand_all (addons : pydict Addon) (gs : list generator) : M unit :=
  match gs with
  | [] => mret tt
  | g :: rest => expand addons g;; expand_all addons rest
  end.

(** [v] is a copy made for the addon [name] during a run from store [h] to
    store [h']: a dict at a location [h] did not have, whose items are
    those of another dict of [h'] except for ["name"]. *)
Definition patched_copy (h h' : heap) (name : string) (v : pyval) : Prop :=
  ∃ (l l0 : loc) (items : gmap string pyval) (original : pyval),
    v = PyRef l ∧ (l ∉ dom h) ∧ l ≠ l0 ∧
    as_mapping h' (PyRef l0) = Some items ∧
    items !! "name" = Some original ∧
    h' !! l =
      Some (ObjDict (<["name" := PyStr (patched_name name (py_format original))]> items)).

(** What a run from [h] to [h'] with events [evs] on behalf of the addons
    [names] keeps: the store only grows, the yielded values are different
    objects, each a copy made for one of the addons. *)
Definition gather_inv (names : list string) (h h' : heap) (evs : list event) : Prop :=
  h ⊆ h' ∧
  NoDup (yields evs) ∧
  ∀ v, v ∈ yields evs → ∃ name, name ∈ names ∧ patched_copy h h' name v.

End Gather.

(** The value under ["name"] of a yielded task, and the names a run
    emitted. *)
Definition task_name (h : heap) (v : pyval) : option pyval :=
  items ← as_mapping h v; items !! "name".

Definition emitted_names (run : result unit * heap * list event) : list (option pyval) :=
  task_name run.1.2 <$> yields run.2.

(** A name without the separator [":"]. *)
Fixpoint colon_free (s : string) : bool :=
  match s with
  | EmptyString => true
  | String c rest => if decide (c = ":"%char) then false else colon_free rest
  end.

(** ** Inputs used to exercise the definitions *)

Definition two_stages (A B : string) : constants :=
  {| HOOKS := [A; B];
     PHASES := ["pre_"; ""; "post_"];
     HOOK_PARENTS := {[ B := A ]} |}.

Definition node (attr : string) (after : option string) : generator :=
  {| gen_attr := attr; gen_create_after := after |}.

(** The attribute keys of a two-stage lifecycle, in iteration order. *)
Definition two_stage_attrs (A B : string) : list string :=
  ["pre_" +:+ A; A; "post_" +:+ A; "pre_" +:+ B; B; "post_" +:+ B].

(** [str()] of an object, for the runs below. *)
Definition demo_str : pyval → string := λ _, "<object>".

(** Two task dicts; the first shares a list of actions by reference. *)
Definition demo_heap : heap :=
  {[ 0 := ObjDict {[ "name" := PyStr "x"; "actions" := PyRef 1 ]};
     1 := ObjOther "list";
     2 := ObjDict {[ "name" := PyStr "y" ]} ]}.

(** An addon given by its methods; it declares the keys it implements. *)
Definition demo_addon (cls : string) (methods : list (string * task_iter)) : Addon :=
  {| addon_type := cls;
     __all__ := methods.*1;
     addon_getattr := λ attr,
       (λ it _, it) <$> (list_to_map methods : gmap string task_iter) !! attr |}.

Definition boom : exn := Exn "ValueError" "boom".

(** Yields one task for [build], then raises; asked again it would yield
    one more. *)
Definition failing_addon : Addon :=
  demo_addon "Failing"
    [("build", IterYield (PyRef 0) (IterRaise boom (IterYield (PyRef 2) IterStop)))].

(** Yields the same local name for [pre_build] and for [build]. *)
Definition working_addon : Addon :=
  demo_addon "Working"
    [("pre_build", IterYield (PyRef 2) IterStop);
     ("build", IterYield (PyRef 2) IterStop)].

Definition demo_manager (is_strict : bool) : LiteManager :=
  {| strict := is_strict;
     task_prefix := "lite-";
     disable_addons := ["off"];
     ignore_sys_prefix := IgnoreTuple ["b"] |}.

Definition demo_implementations : pydict addon_implementation :=
  [("a", λ _, inr failing_addon);
   ("broken", λ _, inl (Exn "RuntimeError" "no such file"));
   ("b", λ _, inr working_addon);
   ("off", λ _, inr working_addon)].

Definition demo_addons : pydict Addon :=
  [("a", failing_addon); ("b", working_addon)].

(** A lifecycle with the single stage [build]. *)
Definition build_only : constants :=
  {| HOOKS := ["build"]; PHASES := ["pre_"; ""; "post_"]; HOOK_PARENTS := ∅ |}.

(** The generator for [build], strict and lenient, and the whole lifecycle
    in lenient mode. *)
Definition strict_build_run : result unit * heap * list event :=
  _gather demo_str (demo_manager true) demo_addons "build" demo_heap.

Definition lenient_build_run : result unit * heap * list event :=
  _gather demo_str (demo_manager false) demo_addons "build" demo_heap.

Definition lenient_full_run : result unit * heap * list event :=
  expand_all demo_str (demo_manager false) demo_addons
    (_default_doit_tasks (demo_manager false) build_only).*2 demo_heap.


(** ** The lifecycle as a list *)

(** The (stage, phase) pairs in the order the two loops of
    [_default_doit_tasks] visit them, and their attribute keys. *)
Definition lifecycle_items (c : constants) : list (string * string) :=
  hook ← HOOKS c; (λ phase, (hook, phase)) <$> PHASES c.

Definition item_attr (item : string * string) : string := item.2 +:+ item.1.

Definition lifecycle_attrs (c : constants) : list string :=
  item_attr <$> lifecycle_items c.

(** One turn of the inner loop, on a pair. *)
Definition doit_item (self : LiteManager) (c : constants)
    (acc : pydict generator * option string) (item : string * string)
    : pydict generator * option string :=
  doit_phase self c item.1 acc item.2.

(** The parent that replaces the predecessor of a pair: the one declared for
    the stage, in the phase ["pre_"]. *)
Definition parent_override (c : constants) (item : string * string) : option string :=
  if decide (item.2 = "pre_") then HOOK_PARENTS c !! item.1 else None.

(** The nodes of the pairs [items], one after the other, the first one after
    [prev]: what the loops build when no key is written twice. *)
Fixpoint lifecycle_chain (self : LiteManager) (c : constants)
    (prev : option string) (items : list (string * string)) : pydict generator :=
  match items with
  | [] => []
  | item :: rest =>
      let prev_attr :=
        match parent_override c item with
        | Some parent => Some ("post_" +:+ parent)
        | None => prev
        end in
      (task_key self (item_attr item), _gather_tasks self (item_attr item) prev_attr)
        :: lifecycle_chain self c (Some (item_attr item)) rest
  end.

(** A lifecycle whose only stage has a parent that is not a stage. *)
Definition orphan_stage : constants :=
  {| HOOKS := ["B"]; PHASES := ["pre_"; ""; "post_"]; HOOK_PARENTS := {[ "B" := "A" ]} |}.

#[global] Instance generator_eq_dec : EqDecision generator.
Proof. solve_decision. Defined.

(** ** The registry as a list *)

(** What an entry point adds to the registry: nothing when it is disabled or
    its constructor raises, else its name with the instance. *)
Definition constructed (self : LiteManager) (entry : string * addon_implementation)
    : option (string * Addon) :=
  if decide (entry.1 ∈ disable_addons self) then None
  else match entry.2 (addon_kw self entry.1) with
       | inr addon_inst => Some (entry.1, addon_inst)
       | inl _ => None
       end.

(** The constructor calls of a trace, in order. *)
Definition constructs (evs : list event) : list (string * addon_kwargs) :=
  omap (λ ev, match ev with EvConstruct name kw => Some (name, kw) | _ => None end) evs.

(** ** Reading traces *)

(** The lines printed, the messages of the ERROR records and the names of
    the addons polled, in order. *)
Definition prints (evs : list event) : list string :=
  omap (λ ev, match ev with EvPrint line => Some line | _ => None end) evs.

Definition error_messages (evs : list event) : list string :=
  omap (λ ev, match ev with EvLog ERROR msg _ => Some msg | _ => None end) evs.

(** The printed lines are the names of the yielded tasks, in store [h]. *)
Definition names_printed (h : heap) (evs : list event) : Prop :=
  task_name h <$> yields evs = (λ line, Some (PyStr line)) <$> prints evs.

(** ** Addons that behave *)

(** An iterable that stops without raising and yields only dicts with a
    name, and the tasks an iterable yields before it stops or raises. *)
Fixpoint iter_ok (h : heap) (it : task_iter) : Prop :=
  match it with
  | IterStop => True
  | IterYield task rest => is_Some (task_name h task) ∧ iter_ok h rest
  | IterRaise _ _ => False
  end.

Fixpoint iter_tasks (it : task_iter) : list pyval :=
  match it with
  | IterYield task rest => task :: iter_tasks rest
  | _ => []
  end.

(** The name due to a task of the addon [name]. *)
Definition expected_name (builtin_str : pyval → string) (self : LiteManager)
    (h : heap) (name : string) (task : pyval) : option string :=
  (λ original, patched_name self name (py_format builtin_str original)) <$> task_name h task.

(** The names due, addon by addon and task by task, for the key [attr]. *)
Definition expected_names (builtin_str : pyval → string) (self : LiteManager)
    (addons : pydict Addon) (attr : string) (h : heap) : list string :=
  entry ← addons;
  if decide (attr ∈ __all__ entry.2) then
    match addon_getattr entry.2 attr with
    | Some method => omap (expected_name builtin_str self h entry.1) (iter_tasks (method self))
    | None => []
    end
  else [].

(** ** What the generator takes from the addons *)

(** A value that refers to no object the store lacks. *)
Definition stored (h : heap) (v : pyval) : bool :=
  match v with
  | PyRef l => bool_decide (l ∈ dom h)
  | PyStr _ => true
  end.

(** The values the addons that declare [attr] give for it are in [h]. *)
Definition addons_stored (self : LiteManager) (h : heap) (attr : string)
    (addons : pydict Addon) : bool :=
  forallb (λ entry : string * Addon,
    if decide (attr ∈ __all__ entry.2) then
      match addon_getattr entry.2 attr with
      | Some method => forallb (stored h) (iter_tasks (method self))
      | None => true
      end
    else true) addons.

(** The descriptors of an iterable that are to be copied, read off the
    iterable and the store [h] alone, and whether the iterable is consumed
    to its end: the descriptors before the first failure of the iterable and
    before the first value that is not a mapping with a name. *)
Fixpoint iter_taken (h : heap) (it : task_iter) : list pyval * bool :=
  match it with
  | IterStop => ([], true)
  | IterRaise _ _ => ([], false)
  | IterYield task rest =>
      match task_name h task with
      | Some _ => let '(tasks, ok) := iter_taken h rest in (task :: tasks, ok)
      | None => ([], false)
      end
  end.

(** The same for an addon and the key [attr], each descriptor with the name
    of the addon that produced it. *)
Definition addon_taken (self : LiteManager) (h : heap) (attr : string)
    (entry : string * Addon) : list (string * pyval) * bool :=
  if decide (attr ∈ __all__ entry.2) then
    match addon_getattr entry.2 attr with
    | Some method =>
        let '(tasks, ok) := iter_taken h (method self) in
        ((λ task, (entry.1, task)) <$> tasks, ok)
    | None => ([], false)
    end
  else ([], true).

(** The same for the registry, addon after addon; in strict mode nothing is
    taken after the first addon that fails. *)
Fixpoint gather_taken (self : LiteManager) (h : heap) (attr : string)
    (addons : pydict Addon) : list (string * pyval) * bool :=
  match addons with
  | [] => ([], true)
  | entry :: rest =>
      let '(taken, ok) := addon_taken self h attr entry in
      if ok || negb (strict self) then
        let '(taken', ok') := gather_taken self h attr rest in (taken ++ taken', ok')
      else (taken, false)
  end.

(** The same for several nodes expanded one after the other. *)
Fixpoint expand_taken (self : LiteManager) (h : heap) (addons : pydict Addon)
    (gs : list generator) : list (string * pyval) * bool :=
  match gs with
  | [] => ([], true)
  | g :: rest =>
      let '(taken, ok) := gather_taken self h (gen_attr g) addons in
      if ok then
        let '(taken', ok') := expand_taken self h addons rest in (taken ++ taken', ok')
      else (taken, false)
  end.

(** [v] is the copy of the descriptor [source.2] of the addon [source.1],
    between the store [h] at the start of a run and the store [h'] at its
    end: a dict at a location [h] did not have, with the items the
    descriptor has in [h], except that ["name"] is the prefix, the addon
    name, [":"] and the name the descriptor has. *)
Definition copy_of (builtin_str : pyval → string) (self : LiteManager)
    (h h' : heap) (source : string * pyval) (v : pyval) : Prop :=
  ∃ (l : loc) (items : gmap string pyval) (original : pyval),
    v = PyRef l ∧ (l ∉ dom h) ∧
    as_mapping h source.2 = Some items ∧
    items !! "name" = Some original ∧
    h' !! l =
      Some (ObjDict (<["name" := PyStr (task_prefix self +:+ source.1 +:+ ":"
                                          +:+ py_format builtin_str original)]> items)).

(** ** [initialize] *)

(** An event that is a log record below ERROR or a constructor call. *)
Definition quiet (ev : event) : Prop :=
  match ev with
  | EvLog lvl _ _ => lvl ≠ ERROR
  | EvConstruct _ _ => True
  | _ => False
  end.

(** [initialize] on a manager whose traits [_addons] and [_doit_tasks] have
    not been read yet: reading them computes them, [_addons] through
    [create_addons], [_doit_tasks] through [_default_doit_tasks]. *)
Definition initialize (self : LiteManager) (c : constants)
    (implementations : pydict addon_implementation) : list event :=
  let '(addons, evs) := create_addons self implementations in
  let tasks := _default_doit_tasks self c in
  [EvLog DEBUG "[lite] [addon] loading ..." None]
  ++ evs
  ++ [EvLog DEBUG ("[lite] [addon] ... OK " +:+ pretty (length addons) +:+ " addons") None;
      EvLog DEBUG "[lite] [tasks] loading ..." None;
      EvLog DEBUG ("[lite] [tasks] ... OK " +:+ pretty (length tasks) +:+ " tasks") None].

(** ** More inputs *)

(** A store with a task dict that has no name, at 3. *)
Definition nameless_heap : heap :=
  <[3 := ObjDict {[ "actions" := PyRef 1 ]}]> demo_heap.

(** Yields a good task, then the dict without a name, then a good task. *)
Definition nameless_addon : Addon :=
  demo_addon "Nameless"
    [("build", IterYield (PyRef 0) (IterYield (PyRef 3) (IterYield (PyRef 2) IterStop)))].

(** Yields a good task, then a list. *)
Definition listing_addon : Addon :=
  demo_addon "Listing"
    [("build", IterYield (PyRef 0) (IterYield (PyRef 1) (IterYield (PyRef 2) IterStop)))].

(** Declares [build] and has no such method. *)
Definition hollow_addon : Addon :=
  {| addon_type := "Hollow"; __all__ := ["build"]; addon_getattr := λ _, None |}.

(** Its method [build] raises [StopIteration] when called. *)
Definition stopping_addon : Addon :=
  demo_addon "Stopping" [("build", IterRaise (StopIteration "done") IterStop)].

(** A store whose task at 2 is a mapping that is not a dict. *)
Definition proxy_heap : heap :=
  <[2 := ObjMapping "mappingproxy" {[ "name" := PyStr "y" ]}]> demo_heap.

(** The generator for [build] on that store, lenient. *)
Definition proxy_build_run : result unit * heap * list event :=
  _gather demo_str (demo_manager false) demo_addons "build" proxy_heap.


(** * Facts *)

(** ** Strings and ordered dictionaries *)

Lemma append_inv_head (p s t : string) : p +:+ s = p +:+ t → s = t.
Proof.
  induction p as [|c p IH]; simpl; [done|].
  intros [= H]. by apply IH.
Qed.

Lemma dict_set_fresh {V} (k : string) (v : V) (d : pydict V) :
  k ∉ d.*1 → dict_set k v d = d ++ [(k, v)].
Proof.
  induction d as [|[k' v'] d IH]; csimpl; [done|].
  intros Hk. apply not_elem_of_cons in Hk as [Hne Hk].
  rewrite decide_False by done. by rewrite IH.
Qed.

Lemma dict_set_keys {V} (k : string) (v : V) (d : pydict V) :
  k ∈ d.*1 → (dict_set k v d).*1 = d.*1.
Proof.
  induction d as [|[k' v'] d IH]; csimpl; [by intros ?%elem_of_nil|].
  intros Hk. destruct (decide (k = k')) as [->|Hne]; csimpl; [done|].
  apply elem_of_cons in Hk as [?|Hk]; [done|]. by rewrite IH.
Qed.

Lemma dict_set_NoDup {V} (k : string) (v : V) (d : pydict V) :
  NoDup d.*1 → NoDup (dict_set k v d).*1.
Proof.
  intros Hd. destruct (decide (k ∈ d.*1)) as [Hin|Hout].
  - by rewrite dict_set_keys.
  - rewrite dict_set_fresh, fmap_app by done. simpl.
    apply NoDup_app. split_and!; [done| |apply NoDup_singleton].
    intros x Hx ->%list_elem_of_singleton. done.
Qed.

Lemma dict_set_elem_of_keys {V} (k k' : string) (v : V) (d : pydict V) :
  k' ∈ (dict_set k v d).*1 ↔ k' = k ∨ k' ∈ d.*1.
Proof.
  destruct (decide (k ∈ d.*1)) as [Hin|Hout].
  - rewrite dict_set_keys by done. split; [by right|]. by intros [->|?].
  - rewrite dict_set_fresh, fmap_app by done. simpl.
    rewrite elem_of_app, list_elem_of_singleton. tauto.
Qed.

(** Filling a dict with pairwise different keys keeps them in insertion
    order. *)
Lemma dict_set_foldl {V} (d l : pydict V) :
  NoDup (d ++ l).*1 →
  foldl (λ acc kv, dict_set kv.1 kv.2 acc) d l = d ++ l.
Proof.
  revert d. induction l as [|[k v] l IH]; intros d Hnd; simpl.
  - by rewrite app_nil_r.
  - rewrite dict_set_fresh.
    + rewrite IH; rewrite <- app_assoc; done.
    + rewrite fmap_app in Hnd. apply NoDup_app in Hnd as (_ & Hnd & _).
      intros Hk. apply (Hnd k Hk). csimpl. apply elem_of_cons. by left.
Qed.

Lemma dict_key_functional {V} (d : pydict V) (k : string) (v1 v2 : V) :
  NoDup d.*1 → (k, v1) ∈ d → (k, v2) ∈ d → v1 = v2.
Proof.
  induction d as [|[k' v'] d IH]; csimpl; [by intros _ ?%elem_of_nil|].
  intros [Hk Hnd]%NoDup_cons H1 H2.
  assert (∀ v, (k', v) ∈ d → False) as Hfresh.
  { intros v Hv. apply Hk, list_elem_of_fmap. by exists (k', v). }
  apply elem_of_cons in H1 as [[= E1 F1]|H1]; apply elem_of_cons in H2 as [[= E2 F2]|H2];
    subst; [done|by destruct (Hfresh v2)|by destruct (Hfresh v1)|by apply IH].
Qed.

Lemma separator_inj (n1 n2 o1 o2 : string) :
  colon_free n1 → colon_free n2 →
  n1 +:+ ":" +:+ o1 = n2 +:+ ":" +:+ o2 → n1 = n2 ∧ o1 = o2.
Proof.
  revert n2. induction n1 as [|c1 n1 IH]; intros [|c2 n2];
    unfold String.append; fold String.append; simpl.
  - by intros _ _ [= ->].
  - intros _ Hc [= <- _]. by rewrite decide_True in Hc.
  - intros Hc _ [= -> _]. by rewrite decide_True in Hc.
  - intros H1 H2 [= -> Heq].
    destruct (decide (c2 = ":"%char)); [done|].
    destruct (IH n2 H1 H2 Heq) as [-> ->]. done.
Qed.

(** ** The generator map of a two-stage lifecycle *)

Section DoitTasks.

Variable self : LiteManager.

Lemma task_key_inj (a b : string) : task_key self a = task_key self b → a = b.
Proof.
  unfold task_key. intros H.
  apply (append_inv_head "task_") in H. by apply append_inv_head in H.
Qed.

Lemma _gather_tasks_gated (attr p : string) :
  p ≠ "" →
  _gather_tasks self attr (Some p) = node attr (Some (task_prefix self +:+ p)).
Proof. intros Hp. unfold _gather_tasks. by rewrite decide_False. Qed.

(** For stage names that are not empty and give six different attribute
    keys, the map has the six keys in iteration order, each node after the
    first gated on the key before it. *)
Lemma doit_tasks_two_stages (A B : string) :
  A ≠ "" → B ≠ "" → NoDup (two_stage_attrs A B) →
  _default_doit_tasks self (two_stages A B) =
    [ (task_key self ("pre_" +:+ A), node ("pre_" +:+ A) None);
      (task_key self A, node A (Some (task_prefix self +:+ "pre_" +:+ A)));
      (task_key self ("post_" +:+ A), node ("post_" +:+ A) (Some (task_prefix self +:+ A)));
      (task_key self ("pre_" +:+ B), node ("pre_" +:+ B) (Some (task_prefix self +:+ "post_" +:+ A)));
      (task_key self B, node B (Some (task_prefix self +:+ "pre_" +:+ B)));
      (task_key self ("post_" +:+ B), node ("post_" +:+ B) (Some (task_prefix self +:+ B))) ].
Proof.
  intros HA HB Hnd.
  assert (A ≠ B) as HAB.
  { intros ->. unfold two_stage_attrs in Hnd.
    apply NoDup_cons in Hnd as [Hnd _]. apply Hnd. set_solver. }
  assert (Inj (=) (=) (task_key self)) by (intros ???; by apply task_key_inj).
  apply (NoDup_fmap_2 (task_key self)) in Hnd.
  unfold two_stage_attrs in Hnd. simpl in Hnd.
  unfold _default_doit_tasks, two_stages, doit_hook.
  cbn [HOOKS PHASES foldl fst]. unfold doit_phase. cbn [HOOK_PARENTS].
  repeat first [rewrite decide_True by done | rewrite decide_False by done].
  rewrite (lookup_singleton_ne B A) by congruence. rewrite lookup_singleton_eq.
  cbn [fst].
  change ("" +:+ A) with A. change ("" +:+ B) with B.
  fold (task_key self ("pre_" +:+ A)) (task_key self A) (task_key self ("post_" +:+ A))
       (task_key self ("pre_" +:+ B)) (task_key self B) (task_key self ("post_" +:+ B)).
  rewrite !_gather_tasks_gated by done.
  unfold _gather_tasks at 1.
  match goal with
  | |- dict_set ?k6 ?v6 (dict_set ?k5 ?v5 (dict_set ?k4 ?v4 (dict_set ?k3 ?v3
         (dict_set ?k2 ?v2 (dict_set ?k1 ?v1 []))))) = _ =>
      change (foldl (λ acc kv, dict_set kv.1 kv.2 acc) []
                [(k1, v1); (k2, v2); (k3, v3); (k4, v4); (k5, v5); (k6, v6)]
              = [(k1, v1); (k2, v2); (k3, v3); (k4, v4); (k5, v5); (k6, v6)])
  end.
  by apply dict_set_foldl.
Qed.

End DoitTasks.

(** C1. With stages [A, B], phases [pre_, (main), post_] and parents
    {B: A}, [_default_doit_tasks] gives nodes for the attribute keys pre_A,
    A, post_A, pre_B, B, post_B in that order (under the names task_ +
    prefix + key); the node of pre_A is not gated, the node of pre_B is
    created after post_A, and every other node is created after the key just
    before it. *)
Theorem default_doit_tasks_A_B (self : LiteManager) :
  let tasks := _default_doit_tasks self (two_stages "A" "B") in
  tasks =
    [ ("task_" +:+ task_prefix self +:+ "pre_A", node "pre_A" None);
      ("task_" +:+ task_prefix self +:+ "A",
         node "A" (Some (task_prefix self +:+ "pre_A")));
      ("task_" +:+ task_prefix self +:+ "post_A",
         node "post_A" (Some (task_prefix self +:+ "A")));
      ("task_" +:+ task_prefix self +:+ "pre_B",
         node "pre_B" (Some (task_prefix self +:+ "post_A")));
      ("task_" +:+ task_prefix self +:+ "B",
         node "B" (Some (task_prefix self +:+ "pre_B")));
      ("task_" +:+ task_prefix self +:+ "post_B",
         node "post_B" (Some (task_prefix self +:+ "B"))) ]
  ∧ gen_attr <$> tasks.*2 = ["pre_A"; "A"; "post_A"; "pre_B"; "B"; "post_B"].
Proof.
  intros tasks. subst tasks.
  rewrite doit_tasks_two_stages; [by split|done|done|].
  unfold two_stage_attrs; simpl.
  apply (bool_decide_unpack _). by vm_compute.
Qed.

(** ** The registry *)

Section Registry.

Variable self : LiteManager.

Implicit Types (addons : pydict Addon) (evs : list event).
Implicit Types (entry : string * addon_implementation).
Implicit Types (impls : pydict addon_implementation).

(** The events of one iteration do not depend on the accumulator, and the
    registry of one iteration does not depend on the events. *)
Lemma create_addon_acc addons evs entry :
  create_addon self (addons, evs) entry =
    ((create_addon self (addons, []) entry).1,
     evs ++ (create_addon self ([], []) entry).2).
Proof.
  destruct entry as [name impl]. unfold create_addon.
  destruct (decide (name ∈ disable_addons self)); [done|].
  destruct (impl (addon_kw self name)); done.
Qed.

Lemma create_addons_acc addons evs impls :
  foldl (create_addon self) (addons, evs) impls =
    (foldl (λ a entry, (create_addon self (a, []) entry).1) addons impls,
     evs ++ (impls ≫= λ entry, (create_addon self ([], []) entry).2)).
Proof.
  revert addons evs. induction impls as [|entry impls IH]; intros addons evs.
  - csimpl. by rewrite app_nil_r.
  - cbn [foldl]. rewrite create_addon_acc, IH. csimpl. by rewrite app_assoc.
Qed.

(** A disabled name leaves the registry alone. *)
Lemma create_addon_disabled addons name impl :
  name ∈ disable_addons self →
  (create_addon self (addons, []) (name, impl)).1 = addons.
Proof. intros Hd. unfold create_addon. by rewrite decide_True. Qed.

(** So does a constructor that raises. *)
Lemma create_addon_raises addons name impl err :
  impl (addon_kw self name) = inl err →
  (create_addon self (addons, []) (name, impl)).1 = addons.
Proof.
  intros Himpl. unfold create_addon.
  destruct (decide (name ∈ disable_addons self)); [done|]. by rewrite Himpl.
Qed.

(** What one iteration records for an enabled name. *)
Lemma create_addon_events_enabled name impl :
  name ∉ disable_addons self →
  EvConstruct name (addon_kw self name)
    ∈ (create_addon self ([], []) (name, impl)).2.
Proof.
  intros Hd. unfold create_addon. rewrite decide_False by done.
  destruct (impl (addon_kw self name)); cbn [snd app];
    apply elem_of_app; right; apply elem_of_cons; by left.
Qed.

Lemma create_addon_events_construct name impl n kw :
  EvConstruct n kw ∈ (create_addon self ([], []) (name, impl)).2 →
  n = name ∧ kw = addon_kw self name ∧ name ∉ disable_addons self.
Proof.
  unfold create_addon.
  destruct (decide (name ∈ disable_addons self)) as [Hd|Hd]; cbn [snd app].
  - intros [=]%list_elem_of_singleton.
  - assert (∀ l : list event,
      (∀ ev, ev ∈ l → ∃ lvl msg exc, ev = EvLog lvl msg exc) →
      EvConstruct n kw ∉ l) as Hlogs.
    { intros l Hl Hin. by destruct (Hl _ Hin) as (?&?&?&?). }
    destruct (impl (addon_kw self name)) as [err|inst]; cbn [snd app];
      intros Hin; apply elem_of_app in Hin as [Hin|Hin].
    1,3: exfalso; revert Hin; apply Hlogs; intros ev;
      destruct (_is_sys_prefix_ignored self name);
        [intros ->%list_elem_of_singleton; eauto|by intros ?%elem_of_nil].
    all: apply elem_of_cons in Hin as [[= -> ->]|Hin]; try done; exfalso;
      revert Hin; apply Hlogs; intros ev.
    + intros ->%list_elem_of_singleton; eauto.
    + unfold log_will. intros (?&->&?)%list_elem_of_fmap; eauto.
Qed.

Lemma create_addons_events impls :
  (create_addons self impls).2 =
    impls ≫= λ entry, (create_addon self ([], []) entry).2.
Proof. unfold create_addons. by rewrite create_addons_acc. Qed.

Lemma create_addons_registry impls :
  (create_addons self impls).1 =
    foldl (λ a entry, (create_addon self (a, []) entry).1) [] impls.
Proof. unfold create_addons. by rewrite create_addons_acc. Qed.

(** The names of the registry are names of enabled entry points whose
    constructor returned. *)
Lemma registry_keys_foldl addons impls n :
  n ∈ (foldl (λ a entry, (create_addon self (a, []) entry).1) addons impls).*1 →
  n ∈ addons.*1 ∨
  ((n ∉ disable_addons self) ∧
   ∃ impl inst, (n, impl) ∈ impls ∧ impl (addon_kw self n) = inr inst).
Proof.
  revert addons. induction impls as [|[name impl] impls IH]; intros addons; cbn [foldl].
  - by left.
  - intros [Hn|(Hd & impl' & inst & Hin & Himpl)]%IH.
    + revert Hn. unfold create_addon.
      destruct (decide (name ∈ disable_addons self)) as [Hd|Hd]; [by left|].
      destruct (impl (addon_kw self name)) as [err|inst] eqn:Himpl; [by left|].
      cbn [fst]. intros [->|Hn]%dict_set_elem_of_keys; [|by left].
      right. split; [done|]. exists impl, inst. split; [apply elem_of_cons; by left|done].
    + right. split; [done|]. exists impl', inst. split; [apply elem_of_cons; by right|done].
Qed.

Lemma registry_keys impls n :
  n ∈ (_default_addons self impls).*1 →
  (n ∉ disable_addons self) ∧
  (∃ impl inst, (n, impl) ∈ impls ∧ impl (addon_kw self n) = inr inst).
Proof.
  unfold _default_addons. rewrite create_addons_registry.
  intros [Hn|Hn]%registry_keys_foldl; [by apply elem_of_nil in Hn|done].
Qed.



(** Disabled entry points could as well be absent. *)
Lemma registry_filter_disabled addons impls name :
  name ∈ disable_addons self →
  foldl (λ a entry, (create_addon self (a, []) entry).1) addons impls =
  foldl (λ a entry, (create_addon self (a, []) entry).1) addons
    (filter (λ entry, entry.1 ≠ name) impls).
Proof.
  intros Hd. revert addons. induction impls as [|[n impl] impls IH]; intros addons; [done|].
  cbn [foldl]. destruct (decide (n = name)) as [->|Hne].
  - rewrite filter_cons_False by (cbn; auto).
    by rewrite create_addon_disabled.
  - rewrite filter_cons_True by done. cbn [foldl]. apply IH.
Qed.

End Registry.

(** ** The store *)

Lemma as_mapping_Some (h : heap) (v : pyval) (items : gmap string pyval) :
  as_mapping h v = Some items ↔
  ∃ l obj, v = PyRef l ∧ h !! l = Some obj ∧ obj_items obj = Some items.
Proof.
  unfold as_mapping. split.
  - destruct v as [s|l]; [done|].
    destruct (h !! l) as [obj|] eqn:Hl; [|done].
    cbn. intros Hobj. by exists l, obj.
  - intros (l & obj & -> & -> & Hobj). done.
Qed.

Lemma as_mapping_dict (h : heap) (l : loc) (items : gmap string pyval) :
  h !! l = Some (ObjDict items) → as_mapping h (PyRef l) = Some items.
Proof. unfold as_mapping. by intros ->. Qed.

Lemma as_mapping_weaken (h h' : heap) (v : pyval) (items : gmap string pyval) :
  h ⊆ h' → as_mapping h v = Some items → as_mapping h' v = Some items.
Proof.
  rewrite !as_mapping_Some. intros Hsub (l & obj & -> & Hl & Hobj).
  exists l, obj. split_and!; [done| |done]. by eapply lookup_weaken.
Qed.

Lemma fresh_loc_None (h : heap) : h !! fresh (dom h) = None.
Proof. apply not_elem_of_dom, is_fresh. Qed.

Lemma alloc_subseteq (h : heap) (o : pyobj) : h ⊆ <[fresh (dom h) := o]> h.
Proof. apply insert_subseteq, fresh_loc_None. Qed.

(** ** Running computations *)

Lemma bind_Ok {A B} (m : M A) (f : A → M B) (h h1 : heap) (a : A) evs1 :
  m h = (Ok a, h1, evs1) →
  (m ≫= f) h = let '(r, h2, evs2) := f a h1 in (r, h2, evs1 ++ evs2).
Proof. intros Hm. unfold mbind, M_bind. by rewrite Hm. Qed.

Lemma bind_Raised {A B} (m : M A) (f : A → M B) (h h1 : heap) (e : exn) evs1 :
  m h = (Raised e, h1, evs1) →
  (m ≫= f) h = (Raised e, h1, evs1).
Proof. intros Hm. unfold mbind, M_bind. by rewrite Hm. Qed.

Lemma dict_unpack_mapping (h : heap) (task : pyval) (items : gmap string pyval) :
  as_mapping h task = Some items →
  dict_unpack task h = (Ok (fresh (dom h)), <[fresh (dom h) := ObjDict items]> h, []).
Proof. intros Hmap. unfold dict_unpack. by rewrite Hmap. Qed.

Lemma getitem_mapping (h : heap) (obj : pyval) (items : gmap string pyval) (key : string) :
  as_mapping h obj = Some items →
  getitem obj key h =
    match items !! key with
    | Some v => (Ok v, h, [])
    | None => (Raised (KeyError key), h, [])
    end.
Proof. intros Hmap. unfold getitem. by rewrite Hmap. Qed.

Lemma setitem_dict (h : heap) (l : loc) (items : gmap string pyval) (key : string) (v : pyval) :
  h !! l = Some (ObjDict items) →
  setitem l key v h = (Ok tt, <[l := ObjDict (<[key := v]> items)]> h, []).
Proof. intros Hl. unfold setitem. by rewrite Hl. Qed.

Lemma bind_inv {A B} (m : M A) (f : A → M B) (h h' : heap) (r : result B) evs :
  (m ≫= f) h = (r, h', evs) →
  (∃ e, r = Raised e ∧ m h = (Raised e, h', evs)) ∨
  (∃ a h1 evs1 evs2,
     m h = (Ok a, h1, evs1) ∧ f a h1 = (r, h', evs2) ∧ evs = evs1 ++ evs2).
Proof.
  unfold mbind, M_bind. destruct (m h) as [[[a|e] h1] evs1].
  - destruct (f a h1) as [[r2 h2] evs2] eqn:Hf. intros [= <- <- <-].
    right. by exists a, h1, evs1, evs2.
  - intros [= <- <- <-]. left. by exists e.
Qed.

Lemma yields_app (evs1 evs2 : list event) :
  yields (evs1 ++ evs2) = yields evs1 ++ yields evs2.
Proof. unfold yields. apply omap_app. Qed.

(** ** The generator body *)

Section GatherFacts.

Variable builtin_str : pyval → string.
Variable self : LiteManager.

(** What one turn of the loop over tasks does, case by case. *)
Lemma patch_task_eq (name : string) (task : pyval) (h : heap) :
  patch_task builtin_str self name task h =
    match as_mapping h task with
    | None =>
        (Raised (TypeError ("'" +:+ type_name h task +:+ "' object is not a mapping")),
         h, [])
    | Some items =>
        let l := fresh (dom h) in
        match items !! "name" with
        | None => (Raised (KeyError "name"), <[l := ObjDict items]> h, [])
        | Some original =>
            let new_name := patched_name self name (py_format builtin_str original) in
            (Ok tt,
             <[l := ObjDict (<["name" := PyStr new_name]> items)]> h,
             [EvPrint new_name; EvYield (PyRef l)])
        end
    end.
Proof.
  unfold patch_task.
  destruct (as_mapping h task) as [items|] eqn:Hmap.
  - erewrite bind_Ok by by apply dict_unpack_mapping.
    pose proof (as_mapping_weaken h _ task items (alloc_subseteq h (ObjDict items)) Hmap)
      as Hmap'.
    destruct (items !! "name") as [original|] eqn:Hname.
    + erewrite bind_Ok by by rewrite (getitem_mapping _ _ _ _ Hmap'), Hname.
      erewrite bind_Ok by by apply setitem_dict, lookup_insert_eq.
      erewrite bind_Ok.
      2:{ erewrite getitem_mapping by apply as_mapping_dict, lookup_insert_eq.
          by rewrite lookup_insert_eq. }
      cbn. by rewrite insert_insert_eq.
    + erewrite bind_Raised by by rewrite (getitem_mapping _ _ _ _ Hmap'), Hname.
      done.
  - apply bind_Raised. unfold dict_unpack. by rewrite Hmap.
Qed.


(** ** What a run keeps *)

Lemma patched_copy_weaken (h0 h h' h1 : heap) (name : string) (v : pyval) :
  h0 ⊆ h → h' ⊆ h1 →
  patched_copy builtin_str self h h' name v →
  patched_copy builtin_str self h0 h1 name v.
Proof.
  intros H0 H1 (l & l0 & items & original & -> & Hl & Hne & Hl0 & Hname & Hcopy).
  exists l, l0, items, original. split_and!; try done.
  - intros Hin. apply Hl. revert Hin. by apply subseteq_dom.
  - by eapply as_mapping_weaken.
  - by eapply lookup_weaken.
Qed.

Lemma patched_copy_loc (h h' : heap) (name : string) (v : pyval) :
  patched_copy builtin_str self h h' name v → ∃ l, v = PyRef l ∧ (l ∉ dom h) ∧ l ∈ dom h'.
Proof.
  intros (l & l0 & items & original & -> & Hl & Hne & Hl0 & Hname & Hcopy).
  exists l. split_and!; [done..|]. apply elem_of_dom. eauto.
Qed.

Lemma gather_inv_nil (names : list string) (h : heap) (evs : list event) :
  yields evs = [] → gather_inv builtin_str self names h h evs.
Proof.
  intros Hy. unfold gather_inv. rewrite Hy. split_and!; [done|apply NoDup_nil_2|].
  by intros v ?%elem_of_nil.
Qed.

Lemma gather_inv_app (names : list string) (h h1 h2 : heap) (evs1 evs2 : list event) :
  gather_inv builtin_str self names h h1 evs1 →
  gather_inv builtin_str self names h1 h2 evs2 →
  gather_inv builtin_str self names h h2 (evs1 ++ evs2).
Proof.
  intros (Hsub1 & Hnd1 & Hc1) (Hsub2 & Hnd2 & Hc2). unfold gather_inv.
  rewrite yields_app. split_and!.
  - by etrans.
  - apply NoDup_app. split_and!; [done| |done].
    intros v Hv1 Hv2.
    destruct (Hc1 v Hv1) as (n1 & _ & (l1 & -> & _ & Hin)%patched_copy_loc).
    destruct (Hc2 _ Hv2) as (n2 & _ & (l2 & [= <-] & Hout & _)%patched_copy_loc).
    done.
  - intros v [Hv|Hv]%elem_of_app.
    + destruct (Hc1 v Hv) as (n & Hn & Hcopy). exists n. split; [done|].
      by apply (patched_copy_weaken h h h1 h2).
    + destruct (Hc2 v Hv) as (n & Hn & Hcopy). exists n. split; [done|].
      by apply (patched_copy_weaken h h1 h2 h2).
Qed.

Lemma gather_inv_names (names names' : list string) (h h' : heap) (evs : list event) :
  names ⊆ names' →
  gather_inv builtin_str self names h h' evs →
  gather_inv builtin_str self names' h h' evs.
Proof.
  intros Hsub (? & ? & Hc). split_and!; [done..|].
  intros v Hv. destruct (Hc v Hv) as (n & Hn & ?). exists n. split; [by apply Hsub|done].
Qed.

Lemma patch_task_inv (name : string) (task : pyval) (h h' : heap) r evs :
  patch_task builtin_str self name task h = (r, h', evs) →
  gather_inv builtin_str self [name] h h' evs.
Proof.
  rewrite patch_task_eq.
  destruct (as_mapping h task) as [items|] eqn:Hmap.
  - cbn zeta. pose proof Hmap as Hmap0.
    apply as_mapping_Some in Hmap as (l0 & obj & -> & Hl0 & Hobj).
    destruct (items !! "name") as [original|] eqn:Hname; intros [= <- <- <-].
    + split_and!; [apply alloc_subseteq|apply NoDup_singleton|].
      intros v ->%list_elem_of_singleton. exists name. split; [by apply list_elem_of_singleton|].
      assert (fresh (dom h) ≠ l0) as Hne.
      { intros Heq. pose proof (fresh_loc_None h) as Hf. rewrite Heq in Hf. congruence. }
      exists (fresh (dom h)), l0, items, original.
      split_and!; [done|apply is_fresh|done| |done|apply lookup_insert_eq].
      eapply as_mapping_weaken; [apply alloc_subseteq|done].
    + split_and!; [apply alloc_subseteq|apply NoDup_nil_2|by intros v ?%elem_of_nil].
  - intros [= <- <- <-]. by apply gather_inv_nil.
Qed.

Lemma for_tasks_inv (name : string) (it : task_iter) (h h' : heap) r evs :
  for_tasks builtin_str self name it h = (r, h', evs) →
  gather_inv builtin_str self [name] h h' evs.
Proof.
  revert h h' r evs. induction it as [|task rest IH|error rest _]; intros h h' r evs; cbn [for_tasks].
  - intros [= <- <- <-]. by apply gather_inv_nil.
  - intros [(e & -> & Hp)|(a & h1 & evs1 & evs2 & Hp & Hrest & ->)]%bind_inv.
    + by eapply patch_task_inv.
    + eapply gather_inv_app; [by eapply patch_task_inv|by eapply IH].
  - intros [= <- <- <-]. by apply gather_inv_nil.
Qed.

(** ** One addon *)

Lemma gather_try_eq (attr name : string) (addon : Addon) (h : heap) :
  gather_try builtin_str self attr name addon h =
    match addon_getattr addon attr with
    | Some method =>
        let '(r, h', evs) := for_tasks builtin_str self name (method self) h in
        (r, h', EvPoll name attr :: evs)
    | None => (Raised (AttributeError (addon_type addon) attr), h, [EvPoll name attr])
    end.
Proof.
  unfold gather_try, call_attr, emit, mbind, M_bind, mret, M_ret, raise.
  destruct (addon_getattr addon attr) as [method|]; [|done].
  by destruct (for_tasks builtin_str self name (method self) h) as [[[[]|e] h'] evs].
Qed.

Lemma gather_try_inv (attr name : string) (addon : Addon) (h h' : heap) r evs :
  gather_try builtin_str self attr name addon h = (r, h', evs) →
  gather_inv builtin_str self [name] h h' evs.
Proof.
  rewrite gather_try_eq. destruct (addon_getattr addon attr) as [method|].
  - destruct (for_tasks _ _ _ _ _) as [[r1 h1] evs1] eqn:Hfor. intros [= <- <- <-].
    apply (gather_inv_app _ h h h1 [EvPoll name attr] evs1);
      [by apply gather_inv_nil|by eapply for_tasks_inv].
  - intros [= <- <- <-]. by apply gather_inv_nil.
Qed.

(** The loop body: nothing for a key the addon does not declare; otherwise
    the [try], and on a failure the error record, then the failure again if
    strict. *)
Lemma gather_addon_eq (attr name : string) (addon : Addon) (h : heap) :
  gather_addon builtin_str self attr (name, addon) h =
    if decide (attr ∈ __all__ addon) then
      match gather_try builtin_str self attr name addon h with
      | (Ok a, h1, evs1) => (Ok a, h1, evs1)
      | (Raised error, h1, evs1) =>
          (if strict self then Raised (leaving_generator error) else Ok tt,
           h1, evs1 ++ [log_err attr name error])
      end
    else (Ok tt, h, []).
Proof.
  unfold gather_addon. destruct (decide (attr ∈ __all__ addon)); [|done].
  unfold try_except.
  destruct (gather_try builtin_str self attr name addon h) as [[[a|error] h1] evs1]; [done|].
  unfold emit, mbind, M_bind, mret, M_ret, raise. by destruct (strict self).
Qed.

Lemma gather_addon_inv (attr name : string) (addon : Addon) (h h' : heap) r evs :
  gather_addon builtin_str self attr (name, addon) h = (r, h', evs) →
  gather_inv builtin_str self [name] h h' evs.
Proof.
  rewrite gather_addon_eq. destruct (decide (attr ∈ __all__ addon)).
  - destruct (gather_try _ _ _ _ _ _) as [[[a|error] h1] evs1] eqn:Htry;
      intros [= <- <- <-]; [by eapply gather_try_inv|].
    apply (gather_inv_app _ h h1 h1); [by eapply gather_try_inv|by apply gather_inv_nil].
  - intros [= <- <- <-]. by apply gather_inv_nil.
Qed.

(** In lenient mode the loop body returns. *)
Lemma gather_addon_lenient (attr : string) (entry : string * Addon) (h : heap) :
  strict self = false →
  (gather_addon builtin_str self attr entry h).1.1 = Ok tt.
Proof.
  intros Hs. destruct entry as [name addon]. rewrite gather_addon_eq.
  destruct (decide (attr ∈ __all__ addon)); [|done]. rewrite Hs.
  by destruct (gather_try _ _ _ _ _ _) as [[[[]|error] h1] evs1].
Qed.

(** ** All addons *)

Lemma _gather_cons (entry : string * Addon) (addons : pydict Addon) (attr : string) (h : heap) :
  _gather builtin_str self (entry :: addons) attr h =
    match gather_addon builtin_str self attr entry h with
    | (Ok _, h1, evs1) =>
        let '(r, h2, evs2) := _gather builtin_str self addons attr h1 in
        (r, h2, evs1 ++ evs2)
    | (Raised e, h1, evs1) => (Raised e, h1, evs1)
    end.
Proof. done. Qed.

Lemma _gather_app (addons1 addons2 : pydict Addon) (attr : string) (h : heap) :
  _gather builtin_str self (addons1 ++ addons2) attr h =
    match _gather builtin_str self addons1 attr h with
    | (Ok _, h1, evs1) =>
        let '(r, h2, evs2) := _gather builtin_str self addons2 attr h1 in
        (r, h2, evs1 ++ evs2)
    | (Raised e, h1, evs1) => (Raised e, h1, evs1)
    end.
Proof.
  revert h. induction addons1 as [|entry addons1 IH]; intros h.
  - cbn. by destruct (_gather _ _ addons2 attr h) as [[r h2] evs2].
  - rewrite <- app_comm_cons, !_gather_cons.
    destruct (gather_addon _ _ _ _ _) as [[[[]|e] h1] evs1]; [|done].
    rewrite IH.
    destruct (_gather _ _ addons1 attr h1) as [[[[]|e] h2] evs2]; [|done].
    destruct (_gather _ _ addons2 attr h2) as [[r h3] evs3].
    by rewrite app_assoc.
Qed.

Lemma _gather_inv (addons : pydict Addon) (attr : string) (h h' : heap) r evs :
  _gather builtin_str self addons attr h = (r, h', evs) →
  gather_inv builtin_str self addons.*1 h h' evs.
Proof.
  revert h h' r evs. induction addons as [|[name addon] addons IH]; intros h h' r evs.
  - intros [= <- <- <-]. by apply gather_inv_nil.
  - rewrite _gather_cons.
    destruct (gather_addon _ _ _ _ _) as [[r1 h1] evs1] eqn:Hone.
    apply gather_addon_inv in Hone.
    apply (gather_inv_names _ ((name, addon) :: addons).*1) in Hone;
      [|csimpl; intros x ->%list_elem_of_singleton; apply elem_of_cons; by left].
    destruct r1 as [[]|e].
    + destruct (_gather _ _ addons attr h1) as [[r2 h2] evs2] eqn:Hrest.
      intros [= <- <- <-]. eapply gather_inv_app; [done|].
      eapply gather_inv_names; [|by eapply IH].
      csimpl. intros x Hx. apply elem_of_cons. by right.
    + by intros [= <- <- <-].
Qed.

Lemma _gather_lenient (addons : pydict Addon) (attr : string) (h : heap) :
  strict self = false →
  (_gather builtin_str self addons attr h).1.1 = Ok tt.
Proof.
  intros Hs. revert h. induction addons as [|entry addons IH]; intros h; [done|].
  rewrite _gather_cons. pose proof (gather_addon_lenient attr entry h Hs) as Hone.
  destruct (gather_addon _ _ _ _ _) as [[r1 h1] evs1]. cbn in Hone. subst r1.
  specialize (IH h1). by destruct (_gather _ _ addons attr h1) as [[r2 h2] evs2].
Qed.

(** ** Which addons are polled *)

Lemma for_tasks_no_poll (name : string) (it : task_iter) (h : heap) (n a : string) :
  EvPoll n a ∉ (for_tasks builtin_str self name it h).2.
Proof.
  revert h. induction it as [|task rest IH|error rest _]; intros h; cbn [for_tasks].
  - apply not_elem_of_nil.
  - unfold mbind, M_bind. rewrite patch_task_eq.
    destruct (as_mapping h task) as [items|]; [|apply not_elem_of_nil].
    cbn zeta. destruct (items !! "name") as [original|]; [|apply not_elem_of_nil].
    specialize (IH (<[fresh (dom h) := ObjDict
      (<["name" := PyStr (patched_name self name (py_format builtin_str original))]> items)]> h)).
    destruct (for_tasks _ _ _ _ _) as [[r2 h2] evs2]. cbn [snd] in *.
    rewrite not_elem_of_app, !not_elem_of_cons. split_and!; [done..|apply not_elem_of_nil|done].
  - apply not_elem_of_nil.
Qed.

Lemma gather_addon_polled (attr name : string) (addon : Addon) (h : heap) (n a : string) :
  EvPoll n a ∈ (gather_addon builtin_str self attr (name, addon) h).2 ↔
  n = name ∧ a = attr ∧ attr ∈ __all__ addon.
Proof.
  rewrite gather_addon_eq, gather_try_eq.
  destruct (decide (attr ∈ __all__ addon)) as [Hin|Hout]; cbn [snd].
  2:{ split; [by intros ?%elem_of_nil|by intros (_ & _ & ?)]. }
  assert (∀ evs error, EvPoll n a ∉ evs →
    EvPoll n a ∈ (EvPoll name attr :: evs) ++ [log_err attr name error] ↔
    n = name ∧ a = attr ∧ attr ∈ __all__ addon) as Hlog.
  { intros evs error Hevs.
    rewrite elem_of_app, elem_of_cons, list_elem_of_singleton. unfold log_err.
    split; [intros [[[= -> ->]|?]|?]; done|intros (-> & -> & _); by left; left]. }
  assert (∀ evs, EvPoll n a ∉ evs →
    EvPoll n a ∈ EvPoll name attr :: evs ↔
    n = name ∧ a = attr ∧ attr ∈ __all__ addon) as Hok.
  { intros evs Hevs. rewrite elem_of_cons.
    split; [intros [[= -> ->]|?]; done|intros (-> & -> & _); by left]. }
  destruct (addon_getattr addon attr) as [method|].
  - pose proof (for_tasks_no_poll name (method self) h n a) as Hno.
    destruct (for_tasks _ _ _ _ _) as [[[[]|error] h1] evs1]; cbn [snd] in *; auto.
  - cbn [snd]. apply (Hlog []), not_elem_of_nil.
Qed.

(** Only registered addons that declare the key are polled. *)
Lemma _gather_polled_declared (addons : pydict Addon) (attr : string) (h : heap)
    (n a : string) :
  EvPoll n a ∈ (_gather builtin_str self addons attr h).2 →
  a = attr ∧ ∃ addon, (n, addon) ∈ addons ∧ attr ∈ __all__ addon.
Proof.
  revert h. induction addons as [|[name addon] addons IH]; intros h.
  - by intros ?%elem_of_nil.
  - rewrite _gather_cons.
    pose proof (gather_addon_polled attr name addon h n a) as Hone.
    destruct (gather_addon _ _ _ _ _) as [[[[]|e] h1] evs1]; cbn [snd] in *.
    + specialize (IH h1). destruct (_gather _ _ addons attr h1) as [[r2 h2] evs2].
      cbn [snd] in *. intros [Hin|Hin]%elem_of_app.
      * apply Hone in Hin as (-> & -> & ?). split; [done|].
        exists addon. split; [apply elem_of_cons; by left|done].
      * destruct (IH Hin) as (-> & addon' & ? & ?). split; [done|].
        exists addon'. split; [apply elem_of_cons; by right|done].
    + intros Hin. apply Hone in Hin as (-> & -> & ?). split; [done|].
      exists addon. split; [apply elem_of_cons; by left|done].
Qed.

(** A generator that returns has polled every addon that declares the key. *)
Lemma _gather_declared_polled (addons : pydict Addon) (attr : string) (h : heap)
    (n : string) (addon : Addon) :
  (_gather builtin_str self addons attr h).1.1 = Ok tt →
  (n, addon) ∈ addons → attr ∈ __all__ addon →
  EvPoll n attr ∈ (_gather builtin_str self addons attr h).2.
Proof.
  revert h. induction addons as [|[name' addon'] addons IH]; intros h.
  - by intros _ ?%elem_of_nil.
  - rewrite _gather_cons.
    pose proof (gather_addon_polled attr name' addon' h n attr) as Hone.
    destruct (gather_addon _ _ _ _ _) as [[[[]|e] h1] evs1]; cbn [fst snd] in *; [|done].
    specialize (IH h1). destruct (_gather _ _ addons attr h1) as [[r2 h2] evs2].
    cbn [fst snd] in *. intros Hr [[= -> ->]|Hin]%elem_of_cons Hattr; apply elem_of_app.
    + left. by apply Hone.
    + right. by apply IH.
Qed.

(** ** What the generator takes *)

Lemma stored_as_mapping (h0 h : heap) (v : pyval) :
  h0 ⊆ h → stored h0 v → as_mapping h v = as_mapping h0 v.
Proof.
  intros Hsub. destruct v as [s|l]; [done|]. cbn [stored].
  intros [obj Hl]%bool_decide_unpack%elem_of_dom.
  unfold as_mapping. by rewrite Hl, (lookup_weaken _ _ _ _ Hl Hsub).
Qed.

Lemma copy_of_weaken (h h' h1 : heap) (source : string * pyval) (v : pyval) :
  h' ⊆ h1 → copy_of builtin_str self h h' source v → copy_of builtin_str self h h1 source v.
Proof.
  intros Hsub (l & items & original & -> & Hl & Hmap & Hname & Hcopy).
  exists l, items, original. split_and!; [done..|]. by eapply lookup_weaken.
Qed.

Lemma Forall2_copy_of_weaken (h h' h1 : heap) (taken : list (string * pyval))
    (vs : list pyval) :
  h' ⊆ h1 →
  Forall2 (copy_of builtin_str self h h') taken vs →
  Forall2 (copy_of builtin_str self h h1) taken vs.
Proof.
  intros Hsub Hall. eapply Forall2_impl; [done|].
  intros source v. by apply copy_of_weaken.
Qed.

(** One turn of the loop over tasks, on a value of the store [h0] the run
    started from. *)
Lemma patch_task_taken (h0 h : heap) (name : string) (task : pyval) :
  h0 ⊆ h → stored h0 task →
  match task_name h0 task with
  | Some original =>
      ∃ h' line,
        patch_task builtin_str self name task h =
          (Ok tt, h', [EvPrint line; EvYield (PyRef (fresh (dom h)))]) ∧
        h ⊆ h' ∧
        copy_of builtin_str self h0 h' (name, task) (PyRef (fresh (dom h)))
  | None =>
      ∃ e h', patch_task builtin_str self name task h = (Raised e, h', []) ∧ h ⊆ h'
  end.
Proof.
  intros Hsub Hstored. rewrite patch_task_eq, (stored_as_mapping h0 h) by done.
  unfold task_name. destruct (as_mapping h0 task) as [items|] eqn:Hmap; cbn.
  - destruct (items !! "name") as [original|] eqn:Hname.
    + eexists _, _. split_and!; [done|apply alloc_subseteq|].
      exists (fresh (dom h)), items, original. split_and!; [done| |done|done|].
      * intros Hin. apply (is_fresh (dom h)). revert Hin. by apply subseteq_dom.
      * apply lookup_insert_eq.
    + eexists _, _. split; [done|apply alloc_subseteq].
  - by eexists _, _.
Qed.

Lemma for_tasks_subseteq (name : string) (it : task_iter) (h h' : heap) r evs :
  for_tasks builtin_str self name it h = (r, h', evs) → h ⊆ h'.
Proof. intros Hrun. by apply for_tasks_inv in Hrun as (? & _). Qed.

Lemma for_tasks_taken (h0 : heap) (name : string) (it : task_iter) (h h' : heap) r evs :
  h0 ⊆ h → forallb (stored h0) (iter_tasks it) →
  for_tasks builtin_str self name it h = (r, h', evs) →
  Forall2 (copy_of builtin_str self h0 h')
    ((λ task, (name, task)) <$> (iter_taken h0 it).1) (yields evs) ∧
  (r = Ok tt ↔ (iter_taken h0 it).2 = true).
Proof.
  revert h h' r evs. induction it as [|task rest IH|error rest _]; intros h h' r evs Hsub;
    cbn [for_tasks iter_tasks iter_taken forallb].
  - intros _ [= <- <- <-]. split; [apply Forall2_nil_2|done].
  - intros [Htask Hrest]%andb_True.
    pose proof (patch_task_taken h0 h name task Hsub Htask) as Hp.
    destruct (task_name h0 task) as [original|].
    + destruct Hp as (h1 & line & Hp & Hsub1 & Hcopy).
      erewrite bind_Ok by done.
      destruct (for_tasks _ _ name rest h1) as [[r2 h2] evs2] eqn:Hfor.
      intros [= <- <- <-].
      destruct (IH h1 h2 r2 evs2) as [Hall Hok]; [by etrans|done|done|].
      destruct (iter_taken h0 rest) as [tasks ok]. cbn [fst snd] in *.
      split; [|done]. csimpl. apply Forall2_cons. split; [|done].
      apply (copy_of_weaken h0 h1 h2); [by eapply for_tasks_subseteq|done].
    + destruct Hp as (e & h1 & Hp & Hsub1). erewrite bind_Raised by done.
      intros [= <- <- <-]. split; [apply Forall2_nil_2|done].
  - intros _ [= <- <- <-]. split; [apply Forall2_nil_2|done].
Qed.

Lemma gather_addon_subseteq (attr : string) (entry : string * Addon) (h h' : heap) r evs :
  gather_addon builtin_str self attr entry h = (r, h', evs) → h ⊆ h'.
Proof. destruct entry. intros Hrun. by apply gather_addon_inv in Hrun as (? & _). Qed.

Lemma _gather_subseteq (addons : pydict Addon) (attr : string) (h h' : heap) r evs :
  _gather builtin_str self addons attr h = (r, h', evs) → h ⊆ h'.
Proof. intros Hrun. by apply _gather_inv in Hrun as (? & _). Qed.

Lemma gather_addon_taken (h0 : heap) (attr : string) (entry : string * Addon)
    (h h' : heap) r evs :
  h0 ⊆ h → addons_stored self h0 attr [entry] →
  gather_addon builtin_str self attr entry h = (r, h', evs) →
  Forall2 (copy_of builtin_str self h0 h') (addon_taken self h0 attr entry).1 (yields evs) ∧
  (r = Ok tt ↔ (addon_taken self h0 attr entry).2 || negb (strict self) = true).
Proof.
  destruct entry as [name addon]. intros Hsub. unfold addons_stored, addon_taken.
  cbn [forallb fst snd]. rewrite gather_addon_eq, gather_try_eq.
  destruct (decide (attr ∈ __all__ addon)) as [Hattr|Hattr].
  2:{ intros _ [= <- <- <-]. split; [apply Forall2_nil_2|done]. }
  destruct (addon_getattr addon attr) as [method|].
  - intros [Hstored _]%andb_True.
    destruct (for_tasks _ _ name (method self) h) as [[r1 h1] evs1] eqn:Hfor.
    destruct (for_tasks_taken h0 name (method self) h h1 r1 evs1) as [Hall Hok]; [done..|].
    destruct (iter_taken h0 (method self)) as [tasks ok]. cbn [fst snd] in *.
    destruct r1 as [[]|e]; intros [= <- <- <-].
    + split; [done|]. destruct Hok as [-> _]; done.
    + change (yields (EvPoll name attr :: evs1 ++ [log_err attr name e]))
        with (yields (evs1 ++ [log_err attr name e])).
      rewrite yields_app, app_nil_r. split; [done|].
      destruct ok; [destruct Hok as [_ Hok]; by specialize (Hok eq_refl)|].
      cbn. by destruct (strict self).
  - intros _ [= <- <- <-]. split; [apply Forall2_nil_2|]. cbn. by destruct (strict self).
Qed.

Lemma addons_stored_cons (h : heap) (attr : string) (entry : string * Addon)
    (addons : pydict Addon) :
  addons_stored self h attr (entry :: addons) ↔
  addons_stored self h attr [entry] ∧ addons_stored self h attr addons.
Proof.
  unfold addons_stored. cbn [forallb]. rewrite !andb_True.
  split; [by intros [? ?]|by intros [[? _] ?]].
Qed.

Lemma _gather_taken (h0 : heap) (addons : pydict Addon) (attr : string)
    (h h' : heap) r evs :
  h0 ⊆ h → addons_stored self h0 attr addons →
  _gather builtin_str self addons attr h = (r, h', evs) →
  Forall2 (copy_of builtin_str self h0 h') (gather_taken self h0 attr addons).1 (yields evs) ∧
  (r = Ok tt ↔ (gather_taken self h0 attr addons).2 = true).
Proof.
  revert h h' r evs. induction addons as [|entry addons IH]; intros h h' r evs Hsub.
  - intros _ [= <- <- <-]. split; [apply Forall2_nil_2|done].
  - intros [Hentry Hrest]%addons_stored_cons. rewrite _gather_cons. cbn [gather_taken].
    destruct (gather_addon _ _ attr entry h) as [[r1 h1] evs1] eqn:Hone.
    destruct (gather_addon_taken h0 attr entry h h1 r1 evs1) as [Hall Hok]; [done..|].
    destruct (addon_taken self h0 attr entry) as [taken ok]. cbn [fst snd] in *.
    destruct r1 as [[]|e].
    + rewrite (proj1 Hok) by done.
      destruct (_gather _ _ addons attr h1) as [[r2 h2] evs2] eqn:Hgo.
      intros [= <- <- <-].
      destruct (IH h1 h2 r2 evs2) as [Hall' Hok']; [|done..|].
      { etrans; [done|]. by eapply gather_addon_subseteq. }
      destruct (gather_taken self h0 attr addons) as [taken' ok']. cbn [fst snd] in *.
      split; [|done]. rewrite yields_app. apply Forall2_app; [|done].
      eapply Forall2_copy_of_weaken; [by eapply _gather_subseteq|done].
    + intros [= <- <- <-].
      destruct (ok || negb (strict self)); [destruct Hok as [_ Hok]; by specialize (Hok eq_refl)|].
      done.
Qed.

Lemma expand_all_subseteq (addons : pydict Addon) (gs : list generator)
    (h h' : heap) r evs :
  expand_all builtin_str self addons gs h = (r, h', evs) → h ⊆ h'.
Proof.
  revert h h' r evs. induction gs as [|g gs IH]; intros h h' r evs; cbn [expand_all].
  - by intros [= <- <- <-].
  - intros [(e & -> & Hg)|(a & h1 & evs1 & evs2 & Hg & Hrest & ->)]%bind_inv.
    + by eapply _gather_subseteq.
    + etrans; [by eapply _gather_subseteq|by eapply IH].
Qed.

Lemma expand_all_taken (h0 : heap) (addons : pydict Addon) (gs : list generator)
    (h h' : heap) r evs :
  h0 ⊆ h → Forall (λ g, addons_stored self h0 (gen_attr g) addons) gs →
  expand_all builtin_str self addons gs h = (r, h', evs) →
  Forall2 (copy_of builtin_str self h0 h') (expand_taken self h0 addons gs).1 (yields evs) ∧
  (r = Ok tt ↔ (expand_taken self h0 addons gs).2 = true).
Proof.
  revert h h' r evs. induction gs as [|g gs IH]; intros h h' r evs Hsub;
    cbn [expand_all expand_taken].
  - intros _ [= <- <- <-]. split; [apply Forall2_nil_2|done].
  - intros [Hg Hgs]%Forall_cons. unfold expand at 1.
    intros [(e & -> & Hrun)|(a & h1 & evs1 & evs2 & Hrun & Hrest & ->)]%bind_inv.
    + destruct (_gather_taken h0 addons (gen_attr g) h h' (Raised e) evs) as [Hall Hok];
        [done..|].
      destruct (gather_taken self h0 (gen_attr g) addons) as [taken ok]. cbn [fst snd] in *.
      destruct ok; [destruct Hok as [_ Hok]; by specialize (Hok eq_refl)|]. done.
    + destruct a.
      destruct (_gather_taken h0 addons (gen_attr g) h h1 (Ok tt) evs1) as [Hall Hok];
        [done..|].
      destruct (IH h1 h' r evs2) as [Hall' Hok']; [|done..|].
      { etrans; [done|]. by eapply _gather_subseteq. }
      destruct (gather_taken self h0 (gen_attr g) addons) as [taken ok]. cbn [fst snd] in *.
      rewrite (proj1 Hok) by done.
      destruct (expand_taken self h0 addons gs) as [taken' ok']. cbn [fst snd] in *.
      split; [|done]. rewrite yields_app. apply Forall2_app; [|done].
      eapply Forall2_copy_of_weaken; [by eapply expand_all_subseteq|done].
Qed.

End GatherFacts.

(** * The registry: claims *)

(** C5. Whatever the strict flag, a constructor that raises does not stop
    [create_addons]: the failure is logged as a warning, the registry is the
    one the other entry points alone would give (so the addon is not in it
    when entry-point names are unique), and every other enabled entry point
    is still constructed. *)
Theorem create_addons_isolates_failure (self : LiteManager)
    (pre post : pydict addon_implementation) (name : string)
    (impl : addon_implementation) (err : exn) :
  name ∉ disable_addons self →
  impl (addon_kw self name) = inl err →
  let impls := pre ++ (name, impl) :: post in
  _default_addons self impls = _default_addons self (pre ++ post) ∧
  EvLog WARNING ("[lite] [addon] [" +:+ name +:+ "] FAIL") (Some err)
    ∈ (create_addons self impls).2 ∧
  (NoDup impls.*1 → name ∉ (_default_addons self impls).*1) ∧
  (∀ n i, (n, i) ∈ pre ++ post → n ∉ disable_addons self →
     EvConstruct n (addon_kw self n) ∈ (create_addons self impls).2).
Proof.
  intros Hd Himpl impls. subst impls. split_and!.
  - unfold _default_addons. rewrite !create_addons_registry, !foldl_app.
    cbn [foldl]. by erewrite create_addon_raises.
  - rewrite create_addons_events, bind_app, bind_cons, !elem_of_app.
    right; left. unfold create_addon. rewrite decide_False by done. rewrite Himpl.
    cbn [snd app]. rewrite elem_of_app, !elem_of_cons. right; right; by left.
  - intros Hnd (_ & impl' & inst & Hin & Himpl')%registry_keys.
    assert ((name, impl) ∈ pre ++ (name, impl) :: post) as Hin0.
    { apply elem_of_app; right; apply elem_of_cons; by left. }
    rewrite (dict_key_functional _ _ _ _ Hnd Hin Hin0) in Himpl'. congruence.
  - intros n i Hin Hn. rewrite create_addons_events. apply list_elem_of_bind.
    exists (n, i). split; [by apply create_addon_events_enabled|].
    apply elem_of_app in Hin as [?|?]; apply elem_of_app; [by left|].
    right. apply elem_of_cons. by right.
Qed.

Lemma create_addons_isolates_failure_witness :
  _default_addons (demo_manager true) demo_implementations = demo_addons ∧
  EvLog WARNING "[lite] [addon] [broken] FAIL" (Some (Exn "RuntimeError" "no such file"))
    ∈ (create_addons (demo_manager true) demo_implementations).2 ∧
  "broken" ∉ (_default_addons (demo_manager true) demo_implementations).*1.
Proof.
  pose proof (create_addons_isolates_failure (demo_manager true)
    [("a", λ _, inr failing_addon)]
    [("b", λ _, inr working_addon); ("off", λ _, inr working_addon)]
    "broken" (λ _, inl (Exn "RuntimeError" "no such file"))
    (Exn "RuntimeError" "no such file")) as H.
  cbn zeta in H.
  destruct H as (Hreg & Hlog & Hout & _).
  - apply (bool_decide_unpack _). vm_compute. exact I.
  - reflexivity.
  - split_and!.
    + etrans; [exact Hreg|]. vm_compute. reflexivity.
    + exact Hlog.
    + apply Hout. apply (bool_decide_unpack _). vm_compute. exact I.
Defined.



(** * The generator: claims *)

Section GatherClaims.

Variable builtin_str : pyval → string.
Variable self : LiteManager.

(** Tasks yielded before the tail of an iterator are handled first. *)
Lemma for_tasks_foldr (name : string) (tasks : list pyval) (tail : task_iter) (h : heap) :
  for_tasks builtin_str self name (foldr IterYield tail tasks) h =
    match for_tasks builtin_str self name (foldr IterYield IterStop tasks) h with
    | (Ok _, h1, evs1) =>
        let '(r, h2, evs2) := for_tasks builtin_str self name tail h1 in
        (r, h2, evs1 ++ evs2)
    | (Raised e, h1, evs1) => (Raised e, h1, evs1)
    end.
Proof.
  revert h. induction tasks as [|task tasks IH]; intros h; cbn [foldr for_tasks].
  - cbn. by destruct (for_tasks _ _ _ tail h) as [[r h2] evs2].
  - unfold mbind, M_bind.
    destruct (patch_task builtin_str self name task h) as [[[[]|e] h1] evs1]; [|done].
    rewrite IH.
    destruct (for_tasks _ _ name (foldr IterYield IterStop tasks) h1)
      as [[[[]|e] h2] evs2]; [|done].
    destruct (for_tasks _ _ name tail h2) as [[r h3] evs3]. by rewrite app_assoc.
Qed.

(** A loop that returns has yielded one copy per task. *)
Lemma for_tasks_Ok_length (name : string) (tasks : list pyval) (h h1 : heap) evs1 :
  for_tasks builtin_str self name (foldr IterYield IterStop tasks) h = (Ok tt, h1, evs1) →
  length (yields evs1) = length tasks.
Proof.
  revert h h1 evs1. induction tasks as [|task tasks IH]; intros h h1 evs1; cbn [foldr for_tasks].
  - by intros [= <- <-].
  - intros [(e & [=] & _)|(a & h2 & evs2 & evs3 & Hp & Hrest & ->)]%bind_inv.
    rewrite yields_app, length_app. cbn [length]. rewrite (IH _ _ _ Hrest).
    rewrite patch_task_eq in Hp.
    destruct (as_mapping h task) as [items|]; [|done]. cbn zeta in Hp.
    destruct (items !! "name"); [|done]. by injection Hp as _ <- <-.
Qed.

(** C3. In strict mode, when polling an addon for a key ends with a failure,
    the generator ends with that failure as it leaves a generator (itself,
    unless it is a [StopIteration], which leaves as a [RuntimeError]); what
    it emitted is what the addons before it and this addon emitted, and the
    addons after it play no part; the error record names the key and the
    addon and carries the text of the failure the addon raised. *)
Theorem strict_failure_aborts (pre post : pydict Addon) (name : string) (addon : Addon)
    (attr : string) (h h1 h2 : heap) (e : exn) (evs1 evs2 : list event) :
  strict self = true →
  _gather builtin_str self pre attr h = (Ok tt, h1, evs1) →
  attr ∈ __all__ addon →
  gather_try builtin_str self attr name addon h1 = (Raised e, h2, evs2) →
  let run := _gather builtin_str self (pre ++ (name, addon) :: post) attr h in
  run =
    (Raised (leaving_generator e), h2,
     evs1 ++ evs2 ++
       [EvLog ERROR ("[lite] [" +:+ attr +:+ "] [" +:+ name +:+ "] [ERR] " +:+ exn_str e)
          None]) ∧
  yields run.2 = yields evs1 ++ yields evs2 ∧
  (exn_stops e = false → run.1.1 = Raised e) ∧
  (exn_stops e = true →
   run.1.1 = Raised (RuntimeError "generator raised StopIteration")).
Proof.
  intros Hs Hpre Hattr Htry run. subst run.
  rewrite _gather_app, Hpre, _gather_cons, gather_addon_eq.
  rewrite decide_True by done. rewrite Htry, Hs. cbn [fst snd]. split_and!; [done| | |].
  - by rewrite !yields_app, app_nil_r.
  - unfold leaving_generator. by intros ->.
  - unfold leaving_generator. by intros ->.
Qed.

(** C4. In lenient mode, when polling an addon for a key ends with a
    failure, an error record with the key and the addon name is logged, the
    failure goes no further, and the generator goes on with the addons after
    it: all they emit is emitted. *)
Theorem lenient_failure_continues (pre post : pydict Addon) (name : string)
    (addon : Addon) (attr : string) (h h1 h2 h3 : heap) (e : exn)
    (r1 r3 : result unit) (evs1 evs2 evs3 : list event) :
  strict self = false →
  _gather builtin_str self pre attr h = (r1, h1, evs1) →
  attr ∈ __all__ addon →
  gather_try builtin_str self attr name addon h1 = (Raised e, h2, evs2) →
  _gather builtin_str self post attr h2 = (r3, h3, evs3) →
  _gather builtin_str self (pre ++ (name, addon) :: post) attr h =
    (Ok tt, h3,
     evs1 ++
     (evs2 ++
        [EvLog ERROR ("[lite] [" +:+ attr +:+ "] [" +:+ name +:+ "] [ERR] " +:+ exn_str e)
           None]) ++
     evs3).
Proof.
  intros Hs Hpre Hattr Htry Hpost.
  pose proof (_gather_lenient builtin_str self pre attr h Hs) as Hr1.
  pose proof (_gather_lenient builtin_str self post attr h2 Hs) as Hr3.
  rewrite Hpre in Hr1. rewrite Hpost in Hr3. cbn in Hr1, Hr3. subst r1 r3.
  rewrite _gather_app, Hpre, _gather_cons, gather_addon_eq.
  rewrite decide_True by done. by rewrite Htry, Hs, Hpost.
Qed.

(** C10. In lenient mode, when the iterable of an addon raises after
    yielding some tasks, the copies of those tasks stay emitted and the
    store keeps them; the failure is logged; whatever the iterable would give
    after the failure is not asked for. *)
Theorem lenient_partial_yields_kept (name : string) (addon : Addon) (attr : string)
    (method : LiteManager → task_iter) (tasks : list pyval) (e : exn)
    (rest : task_iter) (h h1 : heap) (evs1 : list event) :
  strict self = false →
  attr ∈ __all__ addon →
  addon_getattr addon attr = Some method →
  method self = foldr IterYield (IterRaise e rest) tasks →
  for_tasks builtin_str self name (foldr IterYield IterStop tasks) h = (Ok tt, h1, evs1) →
  gather_addon builtin_str self attr (name, addon) h =
    (Ok tt, h1, EvPoll name attr :: evs1 ++ [log_err attr name e]) ∧
  length (yields evs1) = length tasks.
Proof.
  intros Hs Hattr Hget Hmethod Hfor. split; [|by eapply for_tasks_Ok_length].
  rewrite gather_addon_eq, decide_True by done.
  rewrite gather_try_eq, Hget, Hmethod, for_tasks_foldr, Hfor.
  cbn [for_tasks]. unfold raise. by rewrite Hs, app_nil_r.
Qed.

(** Expanding several generators keeps what each of them keeps. *)
Lemma expand_all_inv (addons : pydict Addon) (gs : list generator)
    (h h' : heap) (r : result unit) (evs : list event) :
  expand_all builtin_str self addons gs h = (r, h', evs) →
  gather_inv builtin_str self addons.*1 h h' evs.
Proof.
  revert h h' r evs. induction gs as [|g gs IH]; intros h h' r evs; cbn [expand_all].
  - intros [= <- <- <-]. by apply gather_inv_nil.
  - intros [(e & -> & Hg)|(a & h1 & evs1 & evs2 & Hg & Hrest & ->)]%bind_inv.
    + by eapply _gather_inv.
    + eapply gather_inv_app; [by eapply _gather_inv|by eapply IH].
Qed.


(** C6. A disabled addon is never constructed, is not in the registry, which
    is the one the other entry points alone would give, and no generator
    polls it, for any key. *)
Theorem disabled_addon_absent (impls : pydict addon_implementation) (name : string) :
  name ∈ disable_addons self →
  (∀ kw, EvConstruct name kw ∉ (create_addons self impls).2) ∧
  (name ∉ (_default_addons self impls).*1) ∧
  _default_addons self impls =
    _default_addons self (filter (λ entry, entry.1 ≠ name) impls) ∧
  (∀ attr h a,
     EvPoll name a ∉ (_gather builtin_str self (_default_addons self impls) attr h).2).
Proof.
  intros Hd.
  assert (name ∉ (_default_addons self impls).*1) as Hout.
  { by intros [? _]%registry_keys. }
  split_and!; [|done| |].
  - intros kw. rewrite create_addons_events.
    intros ([n impl] & Hin & _)%list_elem_of_bind.
    by apply create_addon_events_construct in Hin as (-> & _ & ?).
  - unfold _default_addons. rewrite !create_addons_registry.
    by apply registry_filter_disabled.
  - intros attr h a Hp. apply _gather_polled_declared in Hp as (_ & addon & Hin & _).
    apply Hout, list_elem_of_fmap. by exists (name, addon).
Qed.

(** C9. The values the generator yields are, one for one and in order, the
    copies of the descriptors the addons produced, as far as the addons
    were polled: each is a dict made during the run, at a location the
    store did not have, different for each yield and different from the
    descriptor; its items are those of the descriptor, except for ["name"];
    and every object of the store, the descriptors among them, is at the
    end what it was at the start. *)
Theorem gathered_tasks_are_fresh_copies (addons : pydict Addon) (attr : string)
    (h : heap) :
  addons_stored self h attr addons →
  let run := _gather builtin_str self addons attr h in
  let taken := gather_taken self h attr addons in
  (∀ l obj, h !! l = Some obj → run.1.2 !! l = Some obj) ∧
  NoDup (yields run.2) ∧
  Forall2 (copy_of builtin_str self h run.1.2) taken.1 (yields run.2) ∧
  (run.1.1 = Ok tt ↔ taken.2 = true) ∧
  (∀ i source v, taken.1 !! i = Some source → yields run.2 !! i = Some v →
     v ≠ source.2 ∧
     as_mapping run.1.2 source.2 = as_mapping h source.2 ∧
     ∃ l items items' original,
       v = PyRef l ∧ h !! l = None ∧
       as_mapping h source.2 = Some items ∧ items !! "name" = Some original ∧
       run.1.2 !! l = Some (ObjDict items') ∧
       items' !! "name" =
         Some (PyStr (task_prefix self +:+ source.1 +:+ ":"
                        +:+ py_format builtin_str original)) ∧
       ∀ key, key ≠ "name" → items' !! key = items !! key).
Proof.
  intros Hstored run taken. subst run taken.
  destruct (_gather builtin_str self addons attr h) as [[r h'] evs] eqn:Hrun.
  pose proof (_gather_inv _ _ _ _ _ _ _ _ Hrun) as (Hsub & Hnd & _).
  destruct (_gather_taken builtin_str self h addons attr h h' r evs) as [Hall Hok];
    [done..|].
  cbn [fst snd]. split_and!; [|done..|].
  - intros l obj Hl. by eapply lookup_weaken.
  - intros i source v Hsource Hv.
    destruct (Forall2_lookup_lr _ _ _ _ _ _ Hall Hsource Hv)
      as (l & items & original & -> & Hl & Hmap & Hname & Hcopy).
    split_and!.
    + intros Heq. rewrite <- Heq in Hmap.
      apply as_mapping_Some in Hmap as (l0 & obj & [= <-] & Hl0 & _).
      apply Hl, elem_of_dom. eauto.
    + rewrite Hmap. by eapply as_mapping_weaken.
    + eexists l, items, _, original.
      split_and!; [done|by apply not_elem_of_dom|done|done|exact Hcopy| |].
      * apply lookup_insert_eq.
      * intros key Hkey. by rewrite lookup_insert_ne.
Qed.

(** The names of the copies are the names due to their descriptors. *)
Lemma copies_names (h h' : heap) (taken : list (string * pyval)) (vs : list pyval) :
  Forall2 (copy_of builtin_str self h h') taken vs →
  task_name h' <$> vs =
    (λ source : string * pyval,
       (λ original, PyStr (task_prefix self +:+ source.1 +:+ ":"
                             +:+ py_format builtin_str original))
         <$> task_name h source.2) <$> taken ∧
  Forall (λ source : string * pyval, is_Some (task_name h source.2)) taken.
Proof.
  induction 1 as [|source v taken vs Hcopy Hall [IHnames IHsome]]; [done|].
  destruct Hcopy as (l & items & original & -> & Hl & Hmap & Hname & Hcopy).
  assert (task_name h source.2 = Some original) as Hsource.
  { unfold task_name. rewrite Hmap. done. }
  split.
  - csimpl. rewrite IHnames, Hsource. f_equal.
    unfold task_name. rewrite (as_mapping_dict _ _ _ Hcopy). cbn.
    by rewrite lookup_insert_eq.
  - apply Forall_cons. split; [by rewrite Hsource|done].
Qed.

(** C2 (amended). Over a whole run, whatever generators are expanded, the
    names of the yielded tasks are, one for one and in order, prefix + the
    name of the addon that produced the descriptor + ":" + the name the
    descriptor has.  Two of them are equal exactly when they come from the
    same addon name and the same original name, when addon names have no
    ":". *)
Theorem gathered_names_namespaced (addons : pydict Addon) (gs : list generator)
    (h : heap) :
  Forall (λ g, addons_stored self h (gen_attr g) addons) gs →
  let run := expand_all builtin_str self addons gs h in
  let taken := (expand_taken self h addons gs).1 in
  let emitted (source : string * pyval) : option pyval :=
    (λ original, PyStr (task_prefix self +:+ source.1 +:+ ":"
                          +:+ py_format builtin_str original))
      <$> task_name h source.2 in
  emitted_names run = emitted <$> taken ∧
  Forall (λ source, is_Some (task_name h source.2)) taken ∧
  (∀ i j s1 s2, taken !! i = Some s1 → taken !! j = Some s2 →
     colon_free s1.1 → colon_free s2.1 →
     (emitted_names run !! i = emitted_names run !! j ↔
      s1.1 = s2.1 ∧
      py_format builtin_str <$> task_name h s1.2
        = py_format builtin_str <$> task_name h s2.2)).
Proof.
  intros Hstored run taken emitted. subst run taken.
  destruct (expand_all builtin_str self addons gs h) as [[r h'] evs] eqn:Hrun.
  destruct (expand_all_taken builtin_str self h addons gs h h' r evs) as [Hall _];
    [done..|].
  apply copies_names in Hall as [Hnames Hsome]. unfold emitted_names. cbn [fst snd].
  fold emitted in Hnames. split_and!; [done..|].
  intros i j s1 s2 H1 H2 Hc1 Hc2. rewrite Hnames, !list_lookup_fmap, H1, H2. cbn.
  pose proof (Forall_lookup_1 _ _ _ _ Hsome H1) as [o1 Ho1].
  pose proof (Forall_lookup_1 _ _ _ _ Hsome H2) as [o2 Ho2].
  cbn in Ho1, Ho2. subst emitted. cbn. rewrite Ho1, Ho2. cbn. split.
  - intros [= Heq]. apply append_inv_head in Heq.
    apply separator_inj in Heq as [-> ->]; done.
  - by intros [-> [= ->]].
Qed.

End GatherClaims.

(** * The claims on concrete runs *)

Lemma strict_failure_aborts_witness :
  (strict_build_run.1.1 = Raised boom ∧
   strict_build_run.2 =
     [EvPoll "a" "build"; EvPrint "lite-a:x"; EvYield (PyRef 3);
      EvLog ERROR "[lite] [build] [a] [ERR] boom" None]) ∧
  _gather demo_str (demo_manager true) [("s", stopping_addon); ("b", working_addon)]
      "build" demo_heap =
    (Raised (RuntimeError "generator raised StopIteration"), demo_heap,
     [EvPoll "s" "build"; EvLog ERROR "[lite] [build] [s] [ERR] done" None]).
Proof.
  split.
  - pose (run := gather_try demo_str (demo_manager true) "build" "a" failing_addon demo_heap).
    destruct (strict_failure_aborts demo_str (demo_manager true)
      [] [("b", working_addon)] "a" failing_addon "build"
      demo_heap demo_heap run.1.2 boom [] run.2) as [Hrun _].
    + reflexivity.
    + reflexivity.
    + apply (bool_decide_unpack _). vm_compute. exact I.
    + vm_compute. reflexivity.
    + unfold strict_build_run, demo_addons. cbn [app] in Hrun. rewrite Hrun.
      split; [reflexivity|]. vm_compute. reflexivity.
  - destruct (strict_failure_aborts demo_str (demo_manager true)
      [] [("b", working_addon)] "s" stopping_addon "build"
      demo_heap demo_heap demo_heap (StopIteration "done") [] [EvPoll "s" "build"])
      as [Hrun _].
    + reflexivity.
    + reflexivity.
    + apply (bool_decide_unpack _). vm_compute. exact I.
    + vm_compute. reflexivity.
    + cbn [app] in Hrun. rewrite Hrun. reflexivity.
Defined.

Lemma lenient_failure_continues_witness :
  lenient_build_run.1.1 = Ok tt ∧
  lenient_build_run.2 =
    [EvPoll "a" "build"; EvPrint "lite-a:x"; EvYield (PyRef 3);
     EvLog ERROR "[lite] [build] [a] [ERR] boom" None;
     EvPoll "b" "build"; EvPrint "lite-b:y"; EvYield (PyRef 4)].
Proof.
  pose (run := gather_try demo_str (demo_manager false) "build" "a" failing_addon demo_heap).
  pose (after := _gather demo_str (demo_manager false) [("b", working_addon)] "build" run.1.2).
  pose proof (lenient_failure_continues demo_str (demo_manager false)
    [] [("b", working_addon)] "a" failing_addon "build"
    demo_heap demo_heap run.1.2 after.1.2 boom (Ok tt) after.1.1 [] run.2 after.2) as Hrun.
  unfold lenient_build_run, demo_addons. cbn [app] in Hrun. rewrite Hrun.
  - split; [reflexivity|]. vm_compute. reflexivity.
  - reflexivity.
  - reflexivity.
  - apply (bool_decide_unpack _). vm_compute. exact I.
  - vm_compute. reflexivity.
  - vm_compute. reflexivity.
Defined.

Lemma lenient_partial_yields_kept_witness :
  (gather_addon demo_str (demo_manager false) "build" ("a", failing_addon) demo_heap).2 =
    [EvPoll "a" "build"; EvPrint "lite-a:x"; EvYield (PyRef 3);
     EvLog ERROR "[lite] [build] [a] [ERR] boom" None].
Proof.
  pose (run := for_tasks demo_str (demo_manager false) "a"
                 (foldr IterYield IterStop [PyRef 0]) demo_heap).
  destruct (lenient_partial_yields_kept demo_str (demo_manager false)
    "a" failing_addon "build"
    (λ _, IterYield (PyRef 0) (IterRaise boom (IterYield (PyRef 2) IterStop)))
    [PyRef 0] boom (IterYield (PyRef 2) IterStop) demo_heap run.1.2 run.2) as [Hrun _].
  - reflexivity.
  - apply (bool_decide_unpack _). vm_compute. exact I.
  - reflexivity.
  - reflexivity.
  - vm_compute. reflexivity.
  - rewrite Hrun. vm_compute. reflexivity.
Defined.



Lemma disabled_addon_absent_witness :
  "off" ∈ dict_keys demo_implementations ∧
  ("off" ∉ (_default_addons (demo_manager true) demo_implementations).*1) ∧
  ∀ attr h a,
    EvPoll "off" a
      ∉ (_gather demo_str (demo_manager true)
           (_default_addons (demo_manager true) demo_implementations) attr h).2.
Proof.
  destruct (disabled_addon_absent demo_str (demo_manager true) demo_implementations "off")
    as (_ & Hout & _ & Hpoll).
  - apply (bool_decide_unpack _). vm_compute. exact I.
  - split_and!; [|exact Hout|exact Hpoll].
    apply (bool_decide_unpack _). vm_compute. exact I.
Defined.

Lemma gathered_tasks_are_fresh_copies_witness :
  (gather_taken (demo_manager false) proxy_heap "build" demo_addons).1 =
    [("a", PyRef 0); ("b", PyRef 2)] ∧
  yields proxy_build_run.2 = [PyRef 3; PyRef 4] ∧
  Forall2 (copy_of demo_str (demo_manager false) proxy_heap proxy_build_run.1.2)
    [("a", PyRef 0); ("b", PyRef 2)] [PyRef 3; PyRef 4] ∧
  NoDup (yields proxy_build_run.2) ∧
  (∀ l obj, proxy_heap !! l = Some obj → proxy_build_run.1.2 !! l = Some obj) ∧
  proxy_build_run.1.2 !! 3 =
    Some (ObjDict {[ "name" := PyStr "lite-a:x"; "actions" := PyRef 1 ]}) ∧
  proxy_build_run.1.2 !! 4 = Some (ObjDict {[ "name" := PyStr "lite-b:y" ]}).
Proof.
  assert ((gather_taken (demo_manager false) proxy_heap "build" demo_addons).1 =
    [("a", PyRef 0); ("b", PyRef 2)]) as Htaken.
  { vm_compute. reflexivity. }
  assert (yields proxy_build_run.2 = [PyRef 3; PyRef 4]) as Hyields.
  { vm_compute. reflexivity. }
  destruct (gathered_tasks_are_fresh_copies demo_str (demo_manager false) demo_addons
    "build" proxy_heap) as (Hkept & Hnd & Hall & _).
  - vm_compute. exact I.
  - fold proxy_build_run in Hkept, Hnd, Hall. rewrite Htaken, Hyields in Hall.
    split_and!; [exact Htaken|exact Hyields|exact Hall|exact Hnd|exact Hkept| |];
      vm_compute; reflexivity.
Defined.

Lemma gathered_names_namespaced_witness :
  (expand_taken (demo_manager false) demo_heap demo_addons
     (_default_doit_tasks (demo_manager false) build_only).*2).1 =
    [("b", PyRef 2); ("a", PyRef 0); ("b", PyRef 2)] ∧
  emitted_names lenient_full_run =
    (λ source : string * pyval,
       (λ original, PyStr ("lite-" +:+ source.1 +:+ ":" +:+ py_format demo_str original))
         <$> task_name demo_heap source.2)
      <$> [("b", PyRef 2); ("a", PyRef 0); ("b", PyRef 2)] ∧
  emitted_names lenient_full_run !! 0 ≠ emitted_names lenient_full_run !! 1.
Proof.
  assert ((expand_taken (demo_manager false) demo_heap demo_addons
     (_default_doit_tasks (demo_manager false) build_only).*2).1 =
    [("b", PyRef 2); ("a", PyRef 0); ("b", PyRef 2)]) as Htaken.
  { vm_compute. reflexivity. }
  destruct (gathered_names_namespaced demo_str (demo_manager false) demo_addons
    (_default_doit_tasks (demo_manager false) build_only).*2 demo_heap)
    as (Hnames & _ & Hinj).
  - apply (bool_decide_unpack _). vm_compute. exact I.
  - fold lenient_full_run in Hnames, Hinj. rewrite Htaken in Hnames, Hinj.
    split_and!; [exact Htaken|exact Hnames|].
    intros Heq.
    destruct (Hinj 0 1 ("b", PyRef 2) ("a", PyRef 0)) as [Hsame _];
      [reflexivity|reflexivity|exact I|exact I|].
    destruct (Hsame Heq) as [Hname _]. discriminate Hname.
Defined.

(** C2, as first stated, fails: over the whole lifecycle the addon b gives
    the local name y for [pre_build] and for [build], and both tasks are
    emitted as lite-b:y; and an addon name with ":" can clash with another
    addon. *)
Lemma emitted_names_collide :
  emitted_names lenient_full_run =
    [Some (PyStr "lite-b:y"); Some (PyStr "lite-a:x"); Some (PyStr "lite-b:y")] ∧
  ¬ NoDup (emitted_names lenient_full_run) ∧
  patched_name (demo_manager false) "a" "b:y" = patched_name (demo_manager false) "a:b" "y".
Proof.
  assert (emitted_names lenient_full_run =
    [Some (PyStr "lite-b:y"); Some (PyStr "lite-a:x"); Some (PyStr "lite-b:y")]) as Hnames.
  { vm_compute. reflexivity. }
  split_and!; [exact Hnames| |reflexivity]. rewrite Hnames.
  intros [Hnotin _]%NoDup_cons. apply Hnotin.
  apply elem_of_cons. right. apply elem_of_cons. left. reflexivity.
Qed.

(** * Further facts: the generator map of any lifecycle *)

Section Lifecycle.

Variable self : LiteManager.
Variable c : constants.

Lemma doit_tasks_flat (acc : pydict generator * option string) (hooks : list string) :
  foldl (doit_hook self c) acc hooks =
    foldl (doit_item self c) acc
      (hook ← hooks; (λ phase, (hook, phase)) <$> PHASES c).
Proof.
  revert acc. induction hooks as [|hook hooks IH]; intros acc; [done|].
  cbn [foldl]. rewrite IH, bind_cons, foldl_app. f_equal.
  unfold doit_hook. by rewrite foldl_fmap.
Qed.

Lemma doit_item_eq (tasks : pydict generator) (prev : option string)
    (item : string * string) :
  doit_item self c (tasks, prev) item =
    (dict_set (task_key self (item_attr item))
       (_gather_tasks self (item_attr item)
          match parent_override c item with
          | Some parent => Some ("post_" +:+ parent)
          | None => prev
          end) tasks,
     Some (item_attr item)).
Proof.
  destruct item as [hook phase].
  unfold doit_item, doit_phase, parent_override, item_attr. cbn [fst snd].
  destruct (decide (phase = "pre_")); [|done].
  by destruct (HOOK_PARENTS c !! hook).
Qed.

Lemma lifecycle_items_elem_of (hook phase : string) :
  (hook, phase) ∈ lifecycle_items c ↔ hook ∈ HOOKS c ∧ phase ∈ PHASES c.
Proof.
  unfold lifecycle_items. rewrite list_elem_of_bind. split.
  - intros (hook' & Hin & Hhook). apply list_elem_of_fmap in Hin as (phase' & [= -> ->] & ?).
    done.
  - intros [Hhook Hphase]. exists hook. split; [|done].
    apply list_elem_of_fmap. by exists phase.
Qed.

Lemma lifecycle_items_length :
  length (lifecycle_items c) = length (HOOKS c) * length (PHASES c).
Proof.
  unfold lifecycle_items. induction (HOOKS c) as [|hook hooks IH]; [done|].
  rewrite bind_cons, length_app, length_fmap, IH. done.
Qed.

Lemma _gather_tasks_attr (attr : string) (prev : option string) :
  gen_attr (_gather_tasks self attr prev) = attr.
Proof. unfold _gather_tasks. destruct prev as [p|]; [|done]. by destruct (decide (p = "")). Qed.

Lemma dict_set_elem_of {V} (k : string) (v : V) (d : pydict V) (x : string * V) :
  x ∈ dict_set k v d → x = (k, v) ∨ x ∈ d.
Proof.
  induction d as [|[k' v'] d IH]; cbn [dict_set].
  - intros ->%list_elem_of_singleton. by left.
  - destruct (decide (k = k')) as [->|Hne].
    + intros [->|Hx]%elem_of_cons; [by left|]. right. apply elem_of_cons. by right.
    + intros [->|Hx]%elem_of_cons; [right; apply elem_of_cons; by left|].
      destruct (IH Hx) as [->|?]; [by left|]. right. apply elem_of_cons. by right.
Qed.

(** The keys after the loops: those before, and one per pair. *)
Lemma doit_items_keys (tasks : pydict generator) (prev : option string)
    (items : list (string * string)) (k : string) :
  k ∈ (foldl (doit_item self c) (tasks, prev) items).1.*1 ↔
  k ∈ tasks.*1 ∨ ∃ item, item ∈ items ∧ k = task_key self (item_attr item).
Proof.
  revert tasks prev. induction items as [|item items IH]; intros tasks prev; cbn [foldl].
  - split; [by left|]. intros [?|(item & ?%elem_of_nil & _)]; done.
  - rewrite doit_item_eq, IH, dict_set_elem_of_keys. split.
    + intros [[->|?]|(item' & ? & ->)]; [right|by left|right].
      * exists item. split; [apply elem_of_cons; by left|done].
      * exists item'. split; [apply elem_of_cons; by right|done].
    + intros [?|(item' & [->|?]%elem_of_cons & ->)]; [left; by right|left; by left|right].
      by exists item'.
Qed.

Lemma doit_items_NoDup (tasks : pydict generator) (prev : option string)
    (items : list (string * string)) :
  NoDup tasks.*1 → NoDup (foldl (doit_item self c) (tasks, prev) items).1.*1.
Proof.
  revert tasks prev. induction items as [|item items IH]; intros tasks prev Hnd; cbn [foldl].
  - done.
  - rewrite doit_item_eq. by apply IH, dict_set_NoDup.
Qed.

(** Every node sits under the name of its own key. *)
Lemma doit_items_own_key (tasks : pydict generator) (prev : option string)
    (items : list (string * string)) :
  (∀ k g, (k, g) ∈ tasks → k = task_key self (gen_attr g)) →
  ∀ k g, (k, g) ∈ (foldl (doit_item self c) (tasks, prev) items).1 →
    k = task_key self (gen_attr g).
Proof.
  revert tasks prev. induction items as [|item items IH]; intros tasks prev Hown; cbn [foldl].
  - done.
  - rewrite doit_item_eq. apply IH. intros k g [[= -> ->]|Hin]%dict_set_elem_of.
    + by rewrite _gather_tasks_attr.
    + by apply Hown.
Qed.

(** With keys that are all different the loops only append. *)
Lemma doit_items_chain (tasks : pydict generator) (prev : option string)
    (items : list (string * string)) :
  NoDup (tasks.*1 ++ (task_key self <$> (item_attr <$> items))) →
  (foldl (doit_item self c) (tasks, prev) items).1 =
    tasks ++ lifecycle_chain self c prev items.
Proof.
  revert tasks prev. induction items as [|item items IH]; intros tasks prev Hnd;
    cbn [foldl lifecycle_chain].
  - by rewrite app_nil_r.
  - rewrite doit_item_eq. csimpl in Hnd.
    rewrite dict_set_fresh.
    + rewrite IH; [by rewrite <- app_assoc|].
      rewrite fmap_app. csimpl. by rewrite <- app_assoc.
    + apply NoDup_app in Hnd as (_ & Hnd & _). intros Hk. apply (Hnd _ Hk).
      apply elem_of_cons. by left.
Qed.

Lemma lifecycle_chain_keys (prev : option string) (items : list (string * string)) :
  (lifecycle_chain self c prev items).*1 = task_key self <$> (item_attr <$> items).
Proof.
  revert prev. induction items as [|item items IH]; intros prev; csimpl; [done|].
  by rewrite IH.
Qed.

Lemma lifecycle_chain_attrs (prev : option string) (items : list (string * string)) :
  gen_attr <$> (lifecycle_chain self c prev items).*2 = item_attr <$> items.
Proof.
  revert prev. induction items as [|item items IH]; intros prev; csimpl; [done|].
  by rewrite IH, _gather_tasks_attr.
Qed.

Lemma default_doit_tasks_chain :
  NoDup (lifecycle_attrs c) →
  _default_doit_tasks self c = lifecycle_chain self c None (lifecycle_items c).
Proof.
  intros Hnd. unfold _default_doit_tasks. rewrite doit_tasks_flat.
  fold (lifecycle_items c). rewrite doit_items_chain; [done|].
  csimpl. apply NoDup_fmap_2; [|done].
  intros a b Hab. unfold task_key in Hab.
  apply (append_inv_head "task_") in Hab. by apply append_inv_head in Hab.
Qed.

Lemma _gather_tasks_after (attr : string) (prev : option string) :
  gen_create_after (_gather_tasks self attr prev) =
    match prev with
    | Some p => if decide (p = "") then None else Some (task_prefix self +:+ p)
    | None => None
    end.
Proof. unfold _gather_tasks. destruct prev as [p|]; [|done]. by destruct (decide (p = "")). Qed.

Lemma lifecycle_chain_app (prev : option string) (before after : list (string * string))
    (item : string * string) :
  ∃ g, lifecycle_chain self c prev (before ++ item :: after) =
         lifecycle_chain self c prev before
         ++ (task_key self (item_attr item), g)
         :: lifecycle_chain self c (Some (item_attr item)) after.
Proof.
  revert prev. induction before as [|first before IH]; intros prev; cbn [app lifecycle_chain].
  - eauto.
  - destruct (IH (Some (item_attr first))) as [g ->]. eauto.
Qed.

(** X1. The generator map has exactly one entry per name task_ + prefix +
    phase + stage, for the stages of [HOOKS] and the phases of [PHASES]; no
    name occurs twice, each node sits under the name of its own key, and
    there are at most |HOOKS| * |PHASES| entries. *)
Theorem doit_tasks_keys (k : string) :
  let tasks := _default_doit_tasks self c in
  (k ∈ tasks.*1 ↔
     ∃ hook phase, hook ∈ HOOKS c ∧ phase ∈ PHASES c ∧
       k = "task_" +:+ task_prefix self +:+ phase +:+ hook) ∧
  NoDup tasks.*1 ∧
  (∀ g, (k, g) ∈ tasks → k = "task_" +:+ task_prefix self +:+ gen_attr g) ∧
  length tasks ≤ length (HOOKS c) * length (PHASES c).
Proof.
  intros tasks. subst tasks. unfold _default_doit_tasks. rewrite doit_tasks_flat.
  fold (lifecycle_items c).
  assert (∀ k', k' ∈ (foldl (doit_item self c) ([], None) (lifecycle_items c)).1.*1 ↔
    ∃ hook phase, hook ∈ HOOKS c ∧ phase ∈ PHASES c ∧
      k' = "task_" +:+ task_prefix self +:+ phase +:+ hook) as Hkeys.
  { intros k'. rewrite doit_items_keys. split.
    - intros [?%elem_of_nil|([hook phase] & Hin & ->)]; [done|].
      apply lifecycle_items_elem_of in Hin as [? ?]. by exists hook, phase.
    - intros (hook & phase & ? & ? & ->). right. exists (hook, phase).
      split; [by apply lifecycle_items_elem_of|done]. }
  assert (NoDup (foldl (doit_item self c) ([], None) (lifecycle_items c)).1.*1) as Hnd.
  { apply doit_items_NoDup. csimpl. apply NoDup_nil_2. }
  split_and!; [apply Hkeys|done| |].
  - intros g Hin. change (k = task_key self (gen_attr g)).
    eapply doit_items_own_key; [|done]. by intros ?? ?%elem_of_nil.
  - rewrite <- lifecycle_items_length.
    rewrite <- (length_fmap fst), <- (length_fmap (λ item, task_key self (item_attr item))).
    apply submseteq_length, NoDup_submseteq; [done|].
    intros k' Hk'. apply doit_items_keys in Hk' as [?%elem_of_nil|(item & ? & ->)]; [done|].
    apply list_elem_of_fmap. by exists item.
Qed.

Lemma default_doit_tasks_length :
  NoDup (lifecycle_attrs c) →
  length (_default_doit_tasks self c) = length (HOOKS c) * length (PHASES c).
Proof.
  intros Hnd. rewrite default_doit_tasks_chain by done.
  rewrite <- lifecycle_items_length, <- (length_fmap fst), lifecycle_chain_keys.
  by rewrite !length_fmap.
Qed.

(** X2. When the attribute keys of the lifecycle are all different, the map
    lists them in iteration order (stages outer, phases inner), each node
    under its key, and has |HOOKS| * |PHASES| entries. *)
Theorem doit_tasks_in_lifecycle_order :
  NoDup (lifecycle_attrs c) →
  let tasks := _default_doit_tasks self c in
  tasks.*1 = (λ attr, "task_" +:+ task_prefix self +:+ attr) <$> lifecycle_attrs c ∧
  gen_attr <$> tasks.*2 = lifecycle_attrs c ∧
  length tasks = length (HOOKS c) * length (PHASES c).
Proof.
  intros Hnd tasks. subst tasks. rewrite default_doit_tasks_chain by done.
  split_and!.
  - apply lifecycle_chain_keys.
  - apply lifecycle_chain_attrs.
  - rewrite <- default_doit_tasks_chain by done. by apply default_doit_tasks_length.
Qed.

(** X3. When the attribute keys are all different, the node of a pair that
    is not the first is created after the key of the pair just before it
    (unless that key is the empty string: then it is not gated), except in
    the phase pre_ of a stage with a declared parent: then it is created
    after post_ + parent. *)
Theorem doit_tasks_gated_on_predecessor
    (before after : list (string * string)) (previous item : string * string) :
  NoDup (lifecycle_attrs c) →
  lifecycle_items c = before ++ previous :: item :: after →
  ∃ g, ("task_" +:+ task_prefix self +:+ item_attr item, g) ∈ _default_doit_tasks self c ∧
       gen_attr g = item_attr item ∧
       gen_create_after g =
         match parent_override c item with
         | Some parent => Some (task_prefix self +:+ "post_" +:+ parent)
         | None =>
             if decide (item_attr previous = "") then None
             else Some (task_prefix self +:+ item_attr previous)
         end.
Proof.
  intros Hnd Hitems. rewrite default_doit_tasks_chain, Hitems by done.
  destruct (lifecycle_chain_app None before (item :: after) previous) as [g0 ->].
  cbn [lifecycle_chain]. eexists. split_and!.
  - apply elem_of_app. right. apply elem_of_cons. right. apply elem_of_cons. by left.
  - apply _gather_tasks_attr.
  - rewrite _gather_tasks_after. destruct (parent_override c item) as [parent|]; [|done].
    by rewrite decide_False.
Qed.

(** X4. When the attribute keys are all different, the node of the first
    pair is not gated, unless the first stage has a declared parent and the
    first phase is pre_: then even the first node is created after post_ +
    parent. *)
Theorem doit_tasks_first_node (item : string * string) (after : list (string * string)) :
  NoDup (lifecycle_attrs c) →
  lifecycle_items c = item :: after →
  ∃ g tasks, _default_doit_tasks self c =
               ("task_" +:+ task_prefix self +:+ item_attr item, g) :: tasks ∧
       gen_attr g = item_attr item ∧
       gen_create_after g =
         match parent_override c item with
         | Some parent => Some (task_prefix self +:+ "post_" +:+ parent)
         | None => None
         end.
Proof.
  intros Hnd Hitems. rewrite default_doit_tasks_chain, Hitems by done.
  cbn [lifecycle_chain]. eexists _, _. split_and!; [done|apply _gather_tasks_attr|].
  rewrite _gather_tasks_after. destruct (parent_override c item) as [parent|]; [|done].
  by rewrite decide_False.
Qed.

(** What the loops keep: a gate names a registered generator or comes from
    a declared parent, and the key before is registered. *)
Lemma doit_items_gates (tasks : pydict generator) (prev : option string)
    (items : list (string * string)) :
  let gate_ok (keys : list string) (g : generator) :=
    ∀ t, gen_create_after g = Some t →
      "task_" +:+ t ∈ keys ∨
      ∃ hook parent, HOOK_PARENTS c !! hook = Some parent ∧
        t = task_prefix self +:+ "post_" +:+ parent in
  (∀ k g, (k, g) ∈ tasks → gate_ok tasks.*1 g) →
  (∀ a, prev = Some a → task_key self a ∈ tasks.*1) →
  let final := (foldl (doit_item self c) (tasks, prev) items).1 in
  ∀ k g, (k, g) ∈ final → gate_ok final.*1 g.
Proof.
  intros gate_ok. revert tasks prev.
  induction items as [|item items IH]; intros tasks prev Hgates Hprev; cbn [foldl].
  - done.
  - rewrite doit_item_eq. apply IH.
    + intros k g [[= -> ->]|Hin]%dict_set_elem_of t Ht.
      * rewrite _gather_tasks_after in Ht.
        unfold parent_override in Ht.
        destruct (decide (item.2 = "pre_")) as [Hpre|Hpre];
          [destruct (HOOK_PARENTS c !! item.1) as [parent|] eqn:Hparent|].
        -- rewrite decide_False in Ht by done. injection Ht as <-.
           right. by exists item.1, parent.
        -- destruct prev as [p|]; [|done]. destruct (decide (p = "")); [done|].
           injection Ht as <-. left. apply dict_set_elem_of_keys. right. by apply Hprev.
        -- destruct prev as [p|]; [|done]. destruct (decide (p = "")); [done|].
           injection Ht as <-. left. apply dict_set_elem_of_keys. right. by apply Hprev.
      * destruct (Hgates k g Hin t Ht) as [?|?]; [|by right].
        left. apply dict_set_elem_of_keys. by right.
    + intros a [= <-]. apply dict_set_elem_of_keys. by left.
Qed.

(** X5. A gate never dangles on its own: the name a node is created after is
    the name of a generator of the map, or post_ + a declared parent (which
    is in the map only if that parent is a stage and post_ a phase). *)
Theorem doit_tasks_gates_registered (k : string) (g : generator) (t : string) :
  (k, g) ∈ _default_doit_tasks self c →
  gen_create_after g = Some t →
  "task_" +:+ t ∈ (_default_doit_tasks self c).*1 ∨
  ∃ hook parent, HOOK_PARENTS c !! hook = Some parent ∧
    t = task_prefix self +:+ "post_" +:+ parent.
Proof.
  unfold _default_doit_tasks. rewrite doit_tasks_flat. intros Hin Ht.
  refine (doit_items_gates [] None _ _ _ k g Hin t Ht); [by intros ?? ?%elem_of_nil|done].
Qed.

End Lifecycle.

Lemma doit_tasks_in_lifecycle_order_witness :
  (_default_doit_tasks (demo_manager true) (two_stages "A" "B")).*1 =
    ["task_lite-pre_A"; "task_lite-A"; "task_lite-post_A";
     "task_lite-pre_B"; "task_lite-B"; "task_lite-post_B"] ∧
  length (_default_doit_tasks (demo_manager true) (two_stages "A" "B")) = 6.
Proof.
  destruct (doit_tasks_in_lifecycle_order (demo_manager true) (two_stages "A" "B"))
    as (Hkeys & _ & Hlen).
  - apply (bool_decide_unpack _). vm_compute. exact I.
  - split; [rewrite Hkeys; vm_compute; reflexivity|exact Hlen].
Defined.

Lemma doit_tasks_gated_on_predecessor_witness :
  ∃ g, ("task_lite-B", g) ∈ _default_doit_tasks (demo_manager true) (two_stages "A" "B") ∧
       gen_attr g = "B" ∧ gen_create_after g = Some "lite-pre_B".
Proof.
  apply (doit_tasks_gated_on_predecessor (demo_manager true) (two_stages "A" "B")
    [("A", "pre_"); ("A", ""); ("A", "post_")] [("B", "post_")] ("B", "pre_") ("B", "")).
  - apply (bool_decide_unpack _). vm_compute. exact I.
  - reflexivity.
Defined.

Lemma doit_tasks_first_node_witness :
  ∃ g tasks, _default_doit_tasks (demo_manager true) orphan_stage =
               ("task_lite-pre_B", g) :: tasks ∧
       gen_attr g = "pre_B" ∧ gen_create_after g = Some "lite-post_A".
Proof.
  apply (doit_tasks_first_node (demo_manager true) orphan_stage
    ("B", "pre_") [("B", ""); ("B", "post_")]).
  - apply (bool_decide_unpack _). vm_compute. exact I.
  - reflexivity.
Defined.

Lemma doit_tasks_gates_registered_witness :
  "task_lite-pre_B" ∈ (_default_doit_tasks (demo_manager true) orphan_stage).*1 ∧
  ¬ "task_lite-post_A" ∈ (_default_doit_tasks (demo_manager true) orphan_stage).*1 ∧
  ∃ hook parent, HOOK_PARENTS orphan_stage !! hook = Some parent ∧
    "lite-post_A" = "lite-" +:+ "post_" +:+ parent.
Proof.
  destruct (doit_tasks_gates_registered (demo_manager true) orphan_stage
    "task_lite-B" (node "B" (Some "lite-pre_B")) "lite-pre_B") as [Hin|Hparent].
  - apply (bool_decide_unpack _). vm_compute. exact I.
  - reflexivity.
  - destruct (doit_tasks_gates_registered (demo_manager true) orphan_stage
      "task_lite-pre_B" (node "pre_B" (Some "lite-post_A")) "lite-post_A") as [Hin'|Hparent].
    + apply (bool_decide_unpack _). vm_compute. exact I.
    + reflexivity.
    + exfalso. revert Hin'. apply (bool_decide_unpack _). vm_compute. exact I.
    + split_and!; [exact Hin| |exact Hparent].
      apply (bool_decide_unpack _). vm_compute. exact I.
  - destruct Hparent as (hook & parent & _ & Heq).
    exfalso. revert Heq. unfold String.append; fold String.append. discriminate.
Defined.

(** * Further facts: the registry *)

Section RegistryMore.

Variable self : LiteManager.

Lemma registry_step_keys (addons : pydict Addon) (entry : string * addon_implementation)
    (n : string) :
  n ∈ addons.*1 → n ∈ (create_addon self (addons, []) entry).1.*1.
Proof.
  intros Hn. destruct entry as [name impl]. unfold create_addon.
  destruct (decide (name ∈ disable_addons self)); [done|].
  destruct (impl (addon_kw self name)); [done|].
  apply dict_set_elem_of_keys. by right.
Qed.

Lemma registry_keys_mono (addons : pydict Addon) (impls : pydict addon_implementation)
    (n : string) :
  n ∈ addons.*1 →
  n ∈ (foldl (λ a entry, (create_addon self (a, []) entry).1) addons impls).*1.
Proof.
  revert addons. induction impls as [|entry impls IH]; intros addons Hn; [done|].
  cbn [foldl]. by apply IH, registry_step_keys.
Qed.

Lemma registry_keys_constructed (addons : pydict Addon)
    (impls : pydict addon_implementation) (n : string) (impl : addon_implementation)
    (inst : Addon) :
  n ∉ disable_addons self → (n, impl) ∈ impls → impl (addon_kw self n) = inr inst →
  n ∈ (foldl (λ a entry, (create_addon self (a, []) entry).1) addons impls).*1.
Proof.
  intros Hd Hin Himpl. revert addons.
  induction impls as [|entry impls IH]; intros addons; [by apply elem_of_nil in Hin|].
  cbn [foldl]. apply elem_of_cons in Hin as [<-|Hin]; [|by apply IH].
  apply registry_keys_mono. unfold create_addon.
  rewrite decide_False by done. rewrite Himpl. apply dict_set_elem_of_keys. by left.
Qed.

(** X6. A name is in the registry exactly when it is not disabled and some
    entry point of that name has a constructor that returns. *)
Theorem registry_keys_iff (impls : pydict addon_implementation) (n : string) :
  n ∈ (_default_addons self impls).*1 ↔
  (n ∉ disable_addons self) ∧
  (∃ impl inst, (n, impl) ∈ impls ∧ impl (addon_kw self n) = inr inst).
Proof.
  split; [apply registry_keys|].
  intros (Hd & impl & inst & Hin & Himpl).
  unfold _default_addons. rewrite create_addons_registry.
  by eapply registry_keys_constructed.
Qed.

Lemma registry_foldl_constructed (addons : pydict Addon)
    (impls : pydict addon_implementation) :
  NoDup (addons.*1 ++ impls.*1) →
  foldl (λ a entry, (create_addon self (a, []) entry).1) addons impls =
    addons ++ omap (constructed self) impls.
Proof.
  revert addons. induction impls as [|[name impl] impls IH]; intros addons Hnd.
  - by rewrite app_nil_r.
  - csimpl in Hnd. cbn [foldl omap list_omap].
    assert (NoDup (addons.*1 ++ impls.*1)) as Hnd'.
    { apply NoDup_app in Hnd as (? & Hdisj & [_ ?]%NoDup_cons). apply NoDup_app.
      split_and!; [done| |done]. intros x Hx Hx'. apply (Hdisj x Hx). by right. }
    unfold constructed, create_addon. cbn [fst snd].
    destruct (decide (name ∈ disable_addons self)); [by apply IH|].
    destruct (impl (addon_kw self name)) as [err|inst]; [by apply IH|].
    cbn [fst]. rewrite dict_set_fresh.
    + rewrite IH; [by rewrite <- app_assoc|].
      rewrite fmap_app. csimpl. rewrite <- app_assoc. done.
    + apply NoDup_app in Hnd as (_ & Hdisj & _). intros Hx. apply (Hdisj _ Hx). by left.
Qed.

Lemma registry_constructed (impls : pydict addon_implementation) :
  NoDup impls.*1 →
  _default_addons self impls = omap (constructed self) impls.
Proof.
  intros Hnd. unfold _default_addons. rewrite create_addons_registry.
  by rewrite registry_foldl_constructed.
Qed.

(** X7. With entry-point names that are all different, the registry lists,
    in the order of the entry points, the enabled ones whose constructor
    returned, each with the instance returned for the keyword arguments of
    its name. *)
Theorem registry_in_entry_point_order (impls : pydict addon_implementation) :
  NoDup impls.*1 →
  _default_addons self impls = omap (constructed self) impls.
Proof.
  intros Hnd. unfold _default_addons. rewrite create_addons_registry.
  rewrite registry_foldl_constructed; [done|]. by csimpl.
Qed.

Lemma constructs_app (evs1 evs2 : list event) :
  constructs (evs1 ++ evs2) = constructs evs1 ++ constructs evs2.
Proof. unfold constructs. apply omap_app. Qed.

Lemma constructs_log_will (name : string) (keys : list string) :
  constructs (log_will name <$> keys) = [].
Proof. induction keys as [|one keys IH]; [done|]. csimpl. exact IH. Qed.

Lemma create_addon_constructs (entry : string * addon_implementation) :
  constructs (create_addon self ([], []) entry).2 =
    if decide (entry.1 ∈ disable_addons self) then []
    else [(entry.1, addon_kw self entry.1)].
Proof.
  destruct entry as [name impl]. unfold create_addon. cbn [fst].
  destruct (decide (name ∈ disable_addons self)); [done|].
  destruct (impl (addon_kw self name)) as [err|inst]; cbn [snd];
    rewrite !constructs_app, ?constructs_log_will;
    by destruct (_is_sys_prefix_ignored self name).
Qed.

Lemma create_addons_constructs (impls : pydict addon_implementation) :
  constructs (create_addons self impls).2 =
    (λ entry, (entry.1, addon_kw self entry.1))
      <$> filter (λ entry, entry.1 ∉ disable_addons self) impls.
Proof.
  rewrite create_addons_events.
  induction impls as [|entry impls IH]; [done|].
  rewrite bind_cons, constructs_app, IH, create_addon_constructs.
  destruct (decide (entry.1 ∈ disable_addons self)).
  - by rewrite filter_cons_False by auto.
  - by rewrite filter_cons_True by done.
Qed.


End RegistryMore.

Lemma registry_in_entry_point_order_witness :
  _default_addons (demo_manager true) demo_implementations = demo_addons.
Proof.
  rewrite (registry_in_entry_point_order (demo_manager true) demo_implementations).
  - vm_compute. reflexivity.
  - apply (bool_decide_unpack _). vm_compute. exact I.
Defined.

(** * Further facts: the generator *)

Section GatherMore.

Variable builtin_str : pyval → string.
Variable self : LiteManager.

Lemma error_messages_app (evs1 evs2 : list event) :
  error_messages (evs1 ++ evs2) = error_messages evs1 ++ error_messages evs2.
Proof. unfold error_messages. apply omap_app. Qed.

Lemma for_tasks_no_errors (name : string) (it : task_iter) (h : heap) :
  error_messages (for_tasks builtin_str self name it h).2 = [].
Proof.
  revert h. induction it as [|task rest IH|error rest _]; intros h; cbn [for_tasks]; [done| |done].
  unfold mbind, M_bind. rewrite patch_task_eq.
  destruct (as_mapping h task) as [items|]; [|done]. cbn zeta.
  destruct (items !! "name") as [original|]; [|done].
  specialize (IH (<[fresh (dom h) := ObjDict
    (<["name" := PyStr (patched_name self name (py_format builtin_str original))]> items)]> h)).
  destruct (for_tasks _ _ _ _ _) as [[r2 h2] evs2]. cbn [snd] in *.
  by rewrite error_messages_app, IH.
Qed.


(** X9. With strict off the generator returns: whatever is raised inside the
    [try], by the lookup of the method, the call, the iteration or the
    copying, is caught and goes no further.  (The test [attr in
    addon.__all__] is outside the [try]; on an [Addon], whose [__all__] is a
    list of names, it does not raise.) *)
Theorem lenient_gather_returns (addons : pydict Addon) (attr : string) (h : heap) :
  strict self = false →
  (∃ h' evs, _gather builtin_str self addons attr h = (Ok tt, h', evs)) ∧
  (∀ name addon h1 e h2 evs2,
     gather_try builtin_str self attr name addon h1 = (Raised e, h2, evs2) →
     attr ∈ __all__ addon →
     gather_addon builtin_str self attr (name, addon) h1 =
       (Ok tt, h2, evs2 ++ [log_err attr name e])).
Proof.
  intros Hs. split.
  - pose proof (_gather_lenient builtin_str self addons attr h Hs) as Hr.
    destruct (_gather _ _ _ _ _) as [[r h'] evs]. cbn in Hr. subst r. eauto.
  - intros name addon h1 e h2 evs2 Htry Hattr.
    rewrite gather_addon_eq, decide_True by done. by rewrite Htry, Hs.
Qed.


(** X11. A task dict without the key "name" makes its addon fail with
    KeyError 'name', in the middle of its tasks: the tasks before it stay
    emitted, the ones after it are not asked for, the copy already made of
    it stays in the store without being yielded, and the failure is logged
    and, if strict, raised. *)
Theorem task_without_name_fails (name : string) (addon : Addon) (attr : string)
    (method : LiteManager → task_iter) (tasks : list pyval) (bad : pyval)
    (rest : task_iter) (items : gmap string pyval) (h h1 : heap) (evs1 : list event) :
  attr ∈ __all__ addon →
  addon_getattr addon attr = Some method →
  method self = foldr IterYield (IterYield bad rest) tasks →
  for_tasks builtin_str self name (foldr IterYield IterStop tasks) h = (Ok tt, h1, evs1) →
  as_mapping h1 bad = Some items →
  items !! "name" = None →
  gather_addon builtin_str self attr (name, addon) h =
    (if strict self then Raised (KeyError "name") else Ok tt,
     <[fresh (dom h1) := ObjDict items]> h1,
     EvPoll name attr :: evs1 ++
       [EvLog ERROR ("[lite] [" +:+ attr +:+ "] [" +:+ name +:+ "] [ERR] 'name'") None]).
Proof.
  intros Hattr Hget Hmethod Hfor Hmap Hname.
  rewrite gather_addon_eq, decide_True by done.
  rewrite gather_try_eq, Hget, Hmethod, for_tasks_foldr, Hfor.
  cbn [for_tasks]. unfold mbind, M_bind. rewrite patch_task_eq, Hmap. cbn zeta.
  rewrite Hname. by rewrite app_nil_r.
Qed.

(** X12. A yielded value that is not a mapping (a string, or an object that
    is neither a dict nor another mapping) makes its addon fail with
    TypeError "... object is not a mapping": nothing is copied, the tasks
    before it stay emitted, the ones after it are not asked for, and the
    failure is logged and, if strict, raised. *)
Theorem task_not_a_mapping_fails (name : string) (addon : Addon) (attr : string)
    (method : LiteManager → task_iter) (tasks : list pyval) (bad : pyval)
    (rest : task_iter) (h h1 : heap) (evs1 : list event) :
  attr ∈ __all__ addon →
  addon_getattr addon attr = Some method →
  method self = foldr IterYield (IterYield bad rest) tasks →
  for_tasks builtin_str self name (foldr IterYield IterStop tasks) h = (Ok tt, h1, evs1) →
  as_mapping h1 bad = None →
  let error := TypeError ("'" +:+ type_name h1 bad +:+ "' object is not a mapping") in
  gather_addon builtin_str self attr (name, addon) h =
    (if strict self then Raised error else Ok tt,
     h1,
     EvPoll name attr :: evs1 ++
       [EvLog ERROR
          ("[lite] [" +:+ attr +:+ "] [" +:+ name +:+ "] [ERR] '"
             +:+ type_name h1 bad +:+ "' object is not a mapping") None]).
Proof.
  intros Hattr Hget Hmethod Hfor Hmap error. subst error.
  rewrite gather_addon_eq, decide_True by done.
  rewrite gather_try_eq, Hget, Hmethod, for_tasks_foldr, Hfor.
  cbn [for_tasks]. unfold mbind, M_bind. rewrite patch_task_eq, Hmap.
  rewrite app_nil_r. reflexivity.
Qed.

(** X13. An addon that declares a key and has no attribute of that name
    fails with AttributeError before yielding anything: the store is left
    alone, the failure is logged and, if strict, raised. *)
Theorem declared_key_without_method_fails (name : string) (addon : Addon)
    (attr : string) (h : heap) :
  attr ∈ __all__ addon →
  addon_getattr addon attr = None →
  gather_addon builtin_str self attr (name, addon) h =
    (if strict self then Raised (AttributeError (addon_type addon) attr) else Ok tt,
     h,
     [EvPoll name attr;
      EvLog ERROR
        ("[lite] [" +:+ attr +:+ "] [" +:+ name +:+ "] [ERR] '" +:+ addon_type addon
           +:+ "' object has no attribute '" +:+ attr +:+ "'") None]).
Proof.
  intros Hattr Hget. rewrite gather_addon_eq, decide_True by done.
  rewrite gather_try_eq, Hget. reflexivity.
Qed.

(** X14. Addons that do not declare the key play no part: the generator
    does what it would do on the addons that declare it alone, and when none
    declares it, it returns at once with the store as it was and no event. *)
Theorem gather_skips_undeclared (addons : pydict Addon) (attr : string) (h : heap) :
  _gather builtin_str self addons attr h =
    _gather builtin_str self (filter (λ entry, attr ∈ __all__ entry.2) addons) attr h ∧
  ((∀ name addon, (name, addon) ∈ addons → attr ∉ __all__ addon) →
   _gather builtin_str self addons attr h = (Ok tt, h, [])).
Proof.
  assert (_gather builtin_str self addons attr h =
    _gather builtin_str self (filter (λ entry, attr ∈ __all__ entry.2) addons) attr h) as Heq.
  { revert h. induction addons as [|[name addon] addons IH]; intros h; [done|].
    destruct (decide (attr ∈ __all__ addon)) as [Hattr|Hattr].
    - rewrite filter_cons_True by done. rewrite !_gather_cons.
      destruct (gather_addon _ _ _ _ _) as [[[[]|e] h1] evs1]; [|done]. by rewrite IH.
    - rewrite filter_cons_False by done. rewrite _gather_cons, gather_addon_eq.
      rewrite decide_False by done. rewrite IH.
      by destruct (_gather _ _ _ attr h) as [[r2 h2] evs2]. }
  split; [done|]. intros Hnone. rewrite Heq.
  assert (filter (λ entry : string * Addon, attr ∈ __all__ entry.2) addons = []) as ->; [|done].
  clear Heq. induction addons as [|[name addon] addons IH]; [done|].
  rewrite filter_cons_False.
  - apply IH. intros n a Hin. apply (Hnone n). apply elem_of_cons. by right.
  - cbn. apply (Hnone name). apply elem_of_cons. by left.
Qed.

(** X15. The generator over two lists of addons, one after the other, does
    what it does over the first, then, if that returned, what it does over
    the second from the store the first left; if the first raised, the
    second is not touched. *)
Theorem gather_composes (addons1 addons2 : pydict Addon) (attr : string) (h : heap) :
  _gather builtin_str self (addons1 ++ addons2) attr h =
    match _gather builtin_str self addons1 attr h with
    | (Ok _, h1, evs1) =>
        let '(r, h2, evs2) := _gather builtin_str self addons2 attr h1 in
        (r, h2, evs1 ++ evs2)
    | (Raised e, h1, evs1) => (Raised e, h1, evs1)
    end.
Proof.
  revert h. induction addons1 as [|entry addons1 IH]; intros h.
  - cbn. by destruct (_gather _ _ addons2 attr h) as [[r h2] evs2].
  - rewrite <- app_comm_cons, !_gather_cons.
    destruct (gather_addon _ _ _ _ _) as [[[[]|e] h1] evs1]; [|done].
    rewrite IH.
    destruct (_gather _ _ addons1 attr h1) as [[[[]|e] h2] evs2]; [|done].
    destruct (_gather _ _ addons2 attr h2) as [[r h3] evs3].
    by rewrite app_assoc.
Qed.

Lemma prints_app (evs1 evs2 : list event) :
  prints (evs1 ++ evs2) = prints evs1 ++ prints evs2.
Proof. unfold prints. apply omap_app. Qed.

Lemma task_name_weaken (h h' : heap) (v x : pyval) :
  h ⊆ h' → task_name h v = Some x → task_name h' v = Some x.
Proof.
  intros Hsub. unfold task_name.
  destruct (as_mapping h v) as [items|] eqn:Hmap; [|done].
  by rewrite (as_mapping_weaken h h' v items Hsub Hmap).
Qed.

Lemma names_printed_app (h1 h2 : heap) (evs1 evs2 : list event) :
  h1 ⊆ h2 → names_printed h1 evs1 → names_printed h2 evs2 →
  names_printed h2 (evs1 ++ evs2).
Proof.
  unfold names_printed. intros Hsub H1 H2.
  rewrite yields_app, prints_app, !fmap_app, H2. f_equal.
  revert H1. generalize (yields evs1) (prints evs1).
  intros vs. induction vs as [|v vs IH]; intros [|line lines]; csimpl; try done.
  intros [= Hv Hvs]. by rewrite (task_name_weaken h1 h2 v _ Hsub Hv), (IH lines).
Qed.

Lemma patch_task_names (name : string) (task : pyval) (h h' : heap) r evs :
  patch_task builtin_str self name task h = (r, h', evs) → names_printed h' evs.
Proof.
  rewrite patch_task_eq. destruct (as_mapping h task) as [items|]; [|by intros [= <- <- <-]].
  cbn zeta. destruct (items !! "name") as [original|]; intros [= <- <- <-]; [|done].
  unfold names_printed, task_name, as_mapping. cbn.
  rewrite lookup_insert_eq. cbn. by rewrite lookup_insert_eq.
Qed.

Lemma for_tasks_names (name : string) (it : task_iter) (h h' : heap) r evs :
  for_tasks builtin_str self name it h = (r, h', evs) → names_printed h' evs.
Proof.
  revert h h' r evs. induction it as [|task rest IH|error rest _]; intros h h' r evs;
    cbn [for_tasks].
  - by intros [= <- <- <-].
  - intros [(e & -> & Hp)|(a & h1 & evs1 & evs2 & Hp & Hrest & ->)]%bind_inv.
    + by eapply patch_task_names.
    + apply (names_printed_app h1); [|by eapply patch_task_names|by eapply IH].
      by apply for_tasks_inv in Hrest as [? _].
  - by intros [= <- <- <-].
Qed.

Lemma gather_addon_names (attr : string) (entry : string * Addon) (h h' : heap) r evs :
  gather_addon builtin_str self attr entry h = (r, h', evs) → names_printed h' evs.
Proof.
  destruct entry as [name addon]. rewrite gather_addon_eq, gather_try_eq.
  destruct (decide (attr ∈ __all__ addon)) as [Hattr|Hattr]; [|by intros [= <- <- <-]].
  destruct (addon_getattr addon attr) as [method|]; [|by intros [= <- <- <-]].
  destruct (for_tasks _ _ _ _ _) as [[[[]|error] h1] evs1] eqn:Hfor;
    apply for_tasks_names in Hfor; intros [= <- <- <-]; [done|].
  unfold names_printed in *. cbn. rewrite yields_app, prints_app. cbn.
  by rewrite !app_nil_r.
Qed.

Lemma _gather_names (addons : pydict Addon) (attr : string) (h h' : heap) r evs :
  _gather builtin_str self addons attr h = (r, h', evs) → names_printed h' evs.
Proof.
  revert h h' r evs. induction addons as [|entry addons IH]; intros h h' r evs.
  - by intros [= <- <- <-].
  - rewrite _gather_cons.
    destruct (gather_addon _ _ _ _ _) as [[[[]|e] h1] evs1] eqn:Hone;
      apply gather_addon_names in Hone.
    + destruct (_gather _ _ addons attr h1) as [[r2 h2] evs2] eqn:Hrest.
      intros [= <- <- <-]. apply (names_printed_app h1); [|done|by eapply IH].
      by apply _gather_inv in Hrest as [? _].
    + by intros [= <- <- <-].
Qed.

(** X16. What the generator prints is what it yields: the lines printed
    are, one for one and in order, the names of the yielded tasks as the
    store has them at the end. *)
Theorem printed_names_are_emitted (addons : pydict Addon) (attr : string) (h : heap) :
  emitted_names (_gather builtin_str self addons attr h) =
    (λ line, Some (PyStr line)) <$> prints (_gather builtin_str self addons attr h).2.
Proof.
  destruct (_gather _ _ _ _ _) as [[r h'] evs] eqn:Hrun.
  apply _gather_names in Hrun. exact Hrun.
Qed.

Lemma iter_ok_weaken (h h' : heap) (it : task_iter) :
  h ⊆ h' → iter_ok h it → iter_ok h' it.
Proof.
  intros Hsub. induction it as [|task rest IH|error rest _]; cbn [iter_ok]; [done| |done].
  intros [[x Hx] Hrest]. split; [|by apply IH]. exists x. by eapply task_name_weaken.
Qed.

Lemma for_tasks_well_formed (name : string) (it : task_iter) (h0 h : heap) :
  h0 ⊆ h → iter_ok h0 it →
  ∃ h' evs, for_tasks builtin_str self name it h = (Ok tt, h', evs) ∧ h ⊆ h' ∧
            prints evs = omap (expected_name builtin_str self h0 name) (iter_tasks it).
Proof.
  revert h. induction it as [|task rest IH|error rest _]; intros h Hsub; cbn [iter_ok];
    [by exists h, []| |done].
  intros [[original Horig] Hrest]. cbn [for_tasks iter_tasks omap list_omap].
  unfold expected_name at 1. rewrite Horig. cbn [fmap option_fmap option_map].
  pose proof (task_name_weaken h0 h task original Hsub Horig) as Horig'.
  unfold task_name in Horig'.
  destruct (as_mapping h task) as [items|] eqn:Hmap; [|done]. cbn in Horig'.
  unfold mbind, M_bind. rewrite patch_task_eq, Hmap. cbn zeta. rewrite Horig'.
  set (h1 := <[fresh (dom h) := _]> h).
  assert (h ⊆ h1) as Hsub1 by apply alloc_subseteq.
  destruct (IH h1) as (h' & evs & -> & Hsub' & Hprints); [by etrans|done|].
  eexists _, _. split_and!; [done|by etrans|]. by rewrite prints_app, Hprints.
Qed.

Lemma _gather_well_formed (addons : pydict Addon) (attr : string) (h0 h : heap) :
  h0 ⊆ h →
  (∀ name addon, (name, addon) ∈ addons → attr ∈ __all__ addon →
     ∃ method, addon_getattr addon attr = Some method ∧ iter_ok h0 (method self)) →
  ∃ h' evs, _gather builtin_str self addons attr h = (Ok tt, h', evs) ∧
            error_messages evs = [] ∧
            prints evs = expected_names builtin_str self addons attr h0.
Proof.
  revert h. induction addons as [|[name addon] addons IH]; intros h Hsub Hwf.
  - by exists h, [].
  - assert (∀ name' addon', (name', addon') ∈ addons → attr ∈ __all__ addon' →
      ∃ method, addon_getattr addon' attr = Some method ∧ iter_ok h0 (method self)) as Hwf'.
    { intros n a Hin. apply (Hwf n). apply elem_of_cons. by right. }
    rewrite _gather_cons, gather_addon_eq, gather_try_eq.
    unfold expected_names. rewrite bind_cons. fold (expected_names builtin_str self addons attr h0).
    cbn [fst snd].
    destruct (decide (attr ∈ __all__ addon)) as [Hattr|Hattr].
    + destruct (Hwf name addon) as (method & -> & Hok); [apply elem_of_cons; by left|done|].
      pose proof (for_tasks_no_errors name (method self) h) as Hno1.
      destruct (for_tasks_well_formed name (method self) h0 h Hsub Hok)
        as (h1 & evs1 & Hfor & Hsub1 & Hprints1).
      rewrite Hfor in Hno1 |- *. cbn [snd] in Hno1.
      destruct (IH h1) as (h2 & evs2 & -> & Hno2 & Hprints2); [by etrans|done|].
      eexists _, _. split_and!; [done| |].
      * rewrite error_messages_app, Hno2, app_nil_r. exact Hno1.
      * rewrite prints_app, Hprints2. f_equal. exact Hprints1.
    + destruct (IH h Hsub Hwf') as (h2 & evs2 & -> & Hno2 & Hprints2).
      eexists _, _. split_and!; done.
Qed.

(** X17. When every addon that declares the key has the method, and the
    method stops without raising after yielding only dicts with a name, the
    generator returns, strict or not, without any error record, and the
    names it prints are the names due: prefix + addon + ":" + original, addon
    by addon in registry order and task by task. *)
Theorem well_formed_gather_succeeds (addons : pydict Addon) (attr : string) (h : heap) :
  (∀ name addon, (name, addon) ∈ addons → attr ∈ __all__ addon →
     ∃ method, addon_getattr addon attr = Some method ∧ iter_ok h (method self)) →
  ∃ h' evs, _gather builtin_str self addons attr h = (Ok tt, h', evs) ∧
            error_messages evs = [] ∧
            prints evs = expected_names builtin_str self addons attr h.
Proof.
  intros Hwf.
  by apply _gather_well_formed.
Qed.

End GatherMore.

(** * Further facts: [initialize] *)

Section Initialize.

Variable self : LiteManager.

Lemma create_addon_quiet (entry : string * addon_implementation) :
  Forall quiet (create_addon self ([], []) entry).2.
Proof.
  destruct entry as [name impl]. unfold create_addon.
  destruct (decide (name ∈ disable_addons self)); cbn [snd].
  { apply Forall_app. split; [done|]. by apply Forall_singleton. }
  assert (Forall quiet (if _is_sys_prefix_ignored self name
    then [EvLog DEBUG ("[lite] [addon] [" +:+ name +:+ "] ... ignore sys prefix") None]
    else [])) as Hdebug.
  { destruct (_is_sys_prefix_ignored self name); [by apply Forall_singleton|done]. }
  destruct (impl (addon_kw self name)) as [err|inst]; cbn [snd];
    repeat (apply Forall_app; split); try done; try by apply Forall_singleton.
  apply Forall_fmap, Forall_forall. by intros one _.
Qed.

Lemma create_addons_quiet (impls : pydict addon_implementation) :
  Forall quiet (create_addons self impls).2.
Proof.
  rewrite create_addons_events. induction impls as [|entry impls IH]; [done|].
  rewrite bind_cons. apply Forall_app. split; [apply create_addon_quiet|done].
Qed.

(** X18. [initialize] only logs below ERROR and calls constructors (it runs
    no generator, so it polls no addon and yields, prints nothing); the
    constructors it calls are those of [create_addons]; with entry-point
    names that are all different it reports the number of enabled entry
    points whose constructor returned, and with attribute keys that are all
    different it reports |HOOKS| * |PHASES| tasks. *)
Theorem initialize_builds_without_running (c : constants)
    (impls : pydict addon_implementation) :
  let evs := initialize self c impls in
  Forall quiet evs ∧
  constructs evs =
    (λ entry, (entry.1, addon_kw self entry.1))
      <$> filter (λ entry, entry.1 ∉ disable_addons self) impls ∧
  (NoDup impls.*1 →
   EvLog DEBUG ("[lite] [addon] ... OK "
                +:+ pretty (length (omap (constructed self) impls)) +:+ " addons") None
     ∈ evs) ∧
  (NoDup (lifecycle_attrs c) →
   last evs =
     Some (EvLog DEBUG ("[lite] [tasks] ... OK "
                        +:+ pretty (length (HOOKS c) * length (PHASES c)) +:+ " tasks") None)).
Proof.
  intros evs. subst evs. unfold initialize.
  pose proof (create_addons_quiet impls) as Hquiet.
  pose proof (create_addons_constructs self impls) as Hcons.
  pose proof (registry_constructed self impls) as Hreg.
  unfold _default_addons in Hreg.
  destruct (create_addons self impls) as [addons evs]. cbn [fst snd] in *.
  split_and!.
  - apply Forall_cons. split; [done|]. apply Forall_app. split; [done|].
    repeat (apply Forall_cons; split; [done|]). done.
  - rewrite !constructs_app, Hcons. cbn. apply app_nil_r.
  - intros Hnd. rewrite <- (Hreg Hnd). apply elem_of_app. right.
    apply elem_of_app. right. apply elem_of_cons. by left.
  - intros Hnd. rewrite <- (default_doit_tasks_length self c Hnd).
    by rewrite !app_assoc, last_app.
Qed.

End Initialize.

(** * The further facts on concrete runs *)

Lemma registry_keys_iff_witness :
  "b" ∈ (_default_addons (demo_manager true) demo_implementations).*1 ∧
  "broken" ∉ (_default_addons (demo_manager true) demo_implementations).*1.
Proof.
  split.
  - apply (registry_keys_iff (demo_manager true) demo_implementations "b"). split.
    + apply (bool_decide_unpack _). vm_compute. exact I.
    + exists (λ _, inr working_addon), working_addon. split; [|reflexivity].
      apply elem_of_cons. right. apply elem_of_cons. right. apply elem_of_cons. left.
      reflexivity.
  - intros Hin.
    apply (registry_keys_iff (demo_manager true) demo_implementations "broken") in Hin
      as (_ & impl & inst & Hentry & Himpl).
    unfold demo_implementations in Hentry.
    apply elem_of_cons in Hentry as [[=]|Hentry].
    apply elem_of_cons in Hentry as [[= ->]|Hentry]; [discriminate Himpl|].
    apply elem_of_cons in Hentry as [[=]|Hentry].
    apply elem_of_cons in Hentry as [[=]|Hentry].
    by apply elem_of_nil in Hentry.
Defined.

Lemma lenient_gather_returns_witness :
  (∃ h' evs, _gather demo_str (demo_manager false) demo_addons "build" demo_heap
             = (Ok tt, h', evs)) ∧
  gather_addon demo_str (demo_manager false) "build" ("s", stopping_addon) demo_heap =
    (Ok tt, demo_heap,
     [EvPoll "s" "build"; EvLog ERROR "[lite] [build] [s] [ERR] done" None]).
Proof.
  destruct (lenient_gather_returns demo_str (demo_manager false) demo_addons "build"
    demo_heap) as [Hreturns Hcaught].
  - reflexivity.
  - split; [exact Hreturns|].
    rewrite (Hcaught "s" stopping_addon demo_heap (StopIteration "done") demo_heap
      [EvPoll "s" "build"]).
    + reflexivity.
    + vm_compute. reflexivity.
    + apply (bool_decide_unpack _). vm_compute. exact I.
Defined.


Lemma task_without_name_fails_witness :
  (gather_addon demo_str (demo_manager false) "build" ("n", nameless_addon) nameless_heap).2 =
    [EvPoll "n" "build"; EvPrint "lite-n:x"; EvYield (PyRef 4);
     EvLog ERROR "[lite] [build] [n] [ERR] 'name'" None].
Proof.
  pose (run := for_tasks demo_str (demo_manager false) "n"
                 (foldr IterYield IterStop [PyRef 0]) nameless_heap).
  rewrite (task_without_name_fails demo_str (demo_manager false) "n" nameless_addon "build"
    (λ _, IterYield (PyRef 0) (IterYield (PyRef 3) (IterYield (PyRef 2) IterStop)))
    [PyRef 0] (PyRef 3) (IterYield (PyRef 2) IterStop) {[ "actions" := PyRef 1 ]}
    nameless_heap run.1.2 run.2).
  - vm_compute. reflexivity.
  - apply (bool_decide_unpack _). vm_compute. exact I.
  - reflexivity.
  - reflexivity.
  - vm_compute. reflexivity.
  - vm_compute. reflexivity.
  - reflexivity.
Defined.

Lemma task_not_a_mapping_fails_witness :
  gather_addon demo_str (demo_manager true) "build" ("l", listing_addon) demo_heap =
    (Raised (TypeError "'list' object is not a mapping"),
     (for_tasks demo_str (demo_manager true) "l"
        (foldr IterYield IterStop [PyRef 0]) demo_heap).1.2,
     [EvPoll "l" "build"; EvPrint "lite-l:x"; EvYield (PyRef 3);
      EvLog ERROR "[lite] [build] [l] [ERR] 'list' object is not a mapping" None]).
Proof.
  pose (run := for_tasks demo_str (demo_manager true) "l"
                 (foldr IterYield IterStop [PyRef 0]) demo_heap).
  rewrite (task_not_a_mapping_fails demo_str (demo_manager true) "l" listing_addon "build"
    (λ _, IterYield (PyRef 0) (IterYield (PyRef 1) (IterYield (PyRef 2) IterStop)))
    [PyRef 0] (PyRef 1) (IterYield (PyRef 2) IterStop) demo_heap run.1.2 run.2).
  - vm_compute. reflexivity.
  - apply (bool_decide_unpack _). vm_compute. exact I.
  - reflexivity.
  - reflexivity.
  - vm_compute. reflexivity.
  - vm_compute. reflexivity.
Defined.

Lemma declared_key_without_method_fails_witness :
  gather_addon demo_str (demo_manager false) "build" ("h", hollow_addon) demo_heap =
    (Ok tt, demo_heap,
     [EvPoll "h" "build";
      EvLog ERROR "[lite] [build] [h] [ERR] 'Hollow' object has no attribute 'build'" None]).
Proof.
  rewrite (declared_key_without_method_fails demo_str (demo_manager false) "h" hollow_addon
    "build" demo_heap).
  - reflexivity.
  - apply list_elem_of_singleton. reflexivity.
  - reflexivity.
Defined.

Lemma gather_skips_undeclared_witness :
  _gather demo_str (demo_manager true) demo_addons "check" demo_heap = (Ok tt, demo_heap, []).
Proof.
  destruct (gather_skips_undeclared demo_str (demo_manager true) demo_addons "check"
    demo_heap) as [_ Hnone].
  apply Hnone. intros name addon Hin. unfold demo_addons in Hin.
  repeat (apply elem_of_cons in Hin as [[= -> ->]|Hin];
    [apply (bool_decide_unpack _); vm_compute; exact I|]).
  by apply elem_of_nil in Hin.
Defined.

Lemma well_formed_gather_succeeds_witness :
  ∃ h' evs,
    _gather demo_str (demo_manager true) [("b", working_addon)] "build" demo_heap
      = (Ok tt, h', evs) ∧
    error_messages evs = [] ∧ prints evs = ["lite-b:y"].
Proof.
  destruct (well_formed_gather_succeeds demo_str (demo_manager true)
    [("b", working_addon)] "build" demo_heap) as (h' & evs & Hrun & Hno & Hprints).
  - intros name addon [= -> ->]%list_elem_of_singleton _.
    exists (λ _, IterYield (PyRef 2) IterStop). split; [reflexivity|].
    split; [|exact I]. exists (PyStr "y"). vm_compute. reflexivity.
  - exists h', evs. split_and!; [exact Hrun|exact Hno|].
    rewrite Hprints. vm_compute. reflexivity.
Defined.

Lemma initialize_builds_without_running_witness :
  last (initialize (demo_manager true) (two_stages "A" "B") demo_implementations) =
    Some (EvLog DEBUG "[lite] [tasks] ... OK 6 tasks" None) ∧
  EvLog DEBUG "[lite] [addon] ... OK 2 addons" None
    ∈ initialize (demo_manager true) (two_stages "A" "B") demo_implementations.
Proof.
  destruct (initialize_builds_without_running (demo_manager true) (two_stages "A" "B")
    demo_implementations) as (_ & _ & Haddons & Htasks).
  split.
  - rewrite Htasks; [vm_compute; reflexivity|].
    apply (bool_decide_unpack _). vm_compute. exact I.
  - apply Haddons. apply (bool_decide_unpack _). vm_compute. exact I.
Defined.
